(** * auto-audit-pro: status lifecycle, eligibility rules, persistence gateway

    A shallow embedding of the TypeScript sources
      - [types.ts]                    (enums and record shapes),
      - [components/AnalysisView.tsx] (eligibility, move classification,
                                       status changes),
      - [components/InspectionForm.tsx] (intake eligibility, auto-downgrade),
      - [services/storageService.ts]  (the version with the local-storage
                                       fallback: persistence, sync,
                                       technician profiles),
      - [services/geminiService.ts]   (the [DETECTED_TOTAL] marker),
      - [App.tsx]                     (case creation),
    followed by the properties of the specification that concern them.

    Conventions of the embedding.
      - A JavaScript [number] is an exact rational or [NaN]; IEEE rounding and
        the infinities are outside the model.
      - Epoch-millisecond timestamps and calendar years read from the clock
        are integers ([Z]).
      - Text that is only compared or stored is a [string]; the AI response,
        which is matched against a regular expression, is a list of UTF-16
        code units.
      - [async] functions are modelled by their sequential meaning: a
        function from the state before to the state after, together with the
        value returned or the error thrown. *)

From Stdlib Require Import Ascii String QArith Qabs Qminmax Qround Lqa.
From Stdlib Require Import DecimalFacts DecimalNat.
From stdpp Require Import base option list strings gmap sorting.

Local Open Scope Z_scope.

(* ===================================================================== *)
(** * JavaScript numbers *)
(* ===================================================================== *)

Module JS.

Inductive number : Type :=
| Num (q : Q)
| NaN.

Definition of_Z (z : Z) : number := Num (inject_Z z).

(** [a - b] *)
Definition sub (a b : number) : number :=
  match a, b with
  | Num x, Num y => Num (x - y)%Q
  | _, _ => NaN
  end.

(** [x > y] on rationals, as a boolean. *)
Definition Qgtb (x y : Q) : bool := negb (Qle_bool x y).
(** [x < y] on rationals, as a boolean. *)
Definition Qltb (x y : Q) : bool := negb (Qle_bool y x).

(** [a > b]: every comparison with [NaN] is [false]. *)
Definition gt (a b : number) : bool :=
  match a, b with
  | Num x, Num y => Qgtb x y
  | _, _ => false
  end.

(** [a < b] *)
Definition lt (a b : number) : bool :=
  match a, b with
  | Num x, Num y => Qltb x y
  | _, _ => false
  end.

(** ToBoolean on a number: [0] and [NaN] are falsy. *)
Definition truthy (a : number) : bool :=
  match a with
  | Num x => negb (Qeq_bool x 0)
  | NaN => false
  end.

(** ToBoolean on a possibly [undefined] number. *)
Definition truthy_opt (a : option number) : bool :=
  match a with
  | Some n => truthy n
  | None => false
  end.

(** [a || b] where [a] may be [undefined] and [b] is a number. *)
Definition or_else (a : option number) (b : option number) : option number :=
  if truthy_opt a then a else b.

(** [(a || 0)]: the result is always a finite number. *)
Definition or_zero (a : option number) : Q :=
  match a with
  | Some (Num x) => if Qeq_bool x 0 then 0%Q else x
  | Some NaN => 0%Q
  | None => 0%Q
  end.

(** [Math.max(a, b)] and [Math.abs] on finite numbers. *)
Definition max (a b : Q) : Q := if Qle_bool a b then b else a.
Definition abs (a : Q) : Q := Qabs a.

End JS.

(* ===================================================================== *)
(** * types.ts *)
(* ===================================================================== *)

Inductive InventoryProgram : Type :=
| IP_HCUV
| IP_HAPO
| IP_CERTIFIED.

Inductive PostReviewStatus : Type :=
| HCUV
| HAPO
| CERTIFIED
| WHOLESALE
| AS_IS_RETAIL.

(** The string value of each enum member. *)
Definition status_value (s : PostReviewStatus) : string :=
  match s with
  | HCUV => "HCUV"
  | HAPO => "HAPO"
  | CERTIFIED => "Certified"
  | WHOLESALE => "Wholesale"
  | AS_IS_RETAIL => "As-Is Retail"
  end.

Definition program_value (p : InventoryProgram) : string :=
  match p with
  | IP_HCUV => "HCUV"
  | IP_HAPO => "HAPO"
  | IP_CERTIFIED => "Certified"
  end.

(** [data.program as unknown as PostReviewStatus]: the cast keeps the string,
    and the three program strings are status strings. *)
Definition program_as_status (p : InventoryProgram) : PostReviewStatus :=
  match p with
  | IP_HCUV => HCUV
  | IP_HAPO => HAPO
  | IP_CERTIFIED => CERTIFIED
  end.

Inductive InspectionType : Type :=
| ONTARIO_SAFETY
| CERTIFIED_PRE_OWNED
| BOTH.

Inductive OutcomeStatus : Type :=
| PASS
| FAIL
| CONDITIONAL.

Inductive AnalysisMode : Type :=
| AUDIT
| APPRAISAL.

Inductive MoveType : Type :=
| Upgrade
| Downgrade
| Lateral.

#[global] Instance PostReviewStatus_eq_dec : EqDecision PostReviewStatus.
Proof. solve_decision. Defined.
#[global] Instance InventoryProgram_eq_dec : EqDecision InventoryProgram.
Proof. solve_decision. Defined.
#[global] Instance MoveType_eq_dec : EqDecision MoveType.
Proof. solve_decision. Defined.

Record Appraiser : Type := mkAppraiser {
  app_id : string;
  app_name : string
}.

Record Technician : Type := mkTechnician {
  tech_id : string;
  tech_name : string;
  techNumber : string
}.

Record StandardDocument : Type := mkStandard {
  std_id : string;
  std_type : string;
  fileName : string;
  uploadDate : Z;
  extractedRules : string
}.

Record Vehicle : Type := mkVehicle {
  vin : string;
  year : JS.number;
  make : string;
  model : string;
  trim : string;
  kilometres : JS.number;
  stockNumber : option string;
  acquisitionType : string
}.

(** The two estimates are typed [number] in [types.ts]; a stored record may
    lack them, which is why the readers guard them with [|| 0]. *)
Record InspectionData : Type := mkData {
  inspection_type : InspectionType;
  program : InventoryProgram;
  safetyOutcome : OutcomeStatus;
  hcuvOutcome : OutcomeStatus;
  technicianNotes : string;
  technicianName : string;
  appraiserName : string;
  appraiserNotes : string;
  managerAppraisalEstimate : option JS.number;
  serviceDepartmentEstimate : option JS.number;
  attachments : list string
}.

Record StatusHistoryEntry : Type := mkEntry {
  from : PostReviewStatus;
  to : PostReviewStatus;
  entry_timestamp : Z;
  type : MoveType
}.

Record InspectionCase : Type := mkCase {
  id : string;
  timestamp : Z;
  mode : AnalysisMode;
  vehicle : Vehicle;
  data : InspectionData;
  analysis : option (list N);
  detectedTotal : option JS.number;
  currentStatus : PostReviewStatus;
  statusHistory : list StatusHistoryEntry
}.

Inductive ReliabilityTag : Type :=
| Aggressive
| Accurate
| Passive.

Record PerformanceStats : Type := mkPerf {
  perf_technicianName : string;
  perf_appraiserName : string;
  totalCases : nat;
  avgVariance : Q;
  accuracyRating : Q;
  reliabilityTag : ReliabilityTag
}.

(** The result of an eligibility check: [{ ok: boolean; reason?: string }]. *)
Record Eligibility : Type := mkElig {
  ok : bool;
  reason : option string
}.

Definition eligible : Eligibility := {| ok := true; reason := None |}.
Definition ineligible (why : string) : Eligibility :=
  {| ok := false; reason := Some why |}.

(* ===================================================================== *)
(** * components/AnalysisView.tsx *)
(* ===================================================================== *)

Module AnalysisView.

(** [checkEligibility (status)]; [currentYear] and [caseData] are the
    component's closure variables. *)
Definition checkEligibility (currentYear : Z) (caseData : option InspectionCase)
    (status : PostReviewStatus) : Eligibility :=
  match caseData with
  | None => eligible
  | Some c =>
      let age := JS.sub (JS.of_Z currentYear) (year (vehicle c)) in
      let kms := kilometres (vehicle c) in
      match status with
      | HCUV =>
          if JS.gt age (JS.of_Z 6) then ineligible "Age > 6yr"
          else if JS.gt kms (JS.of_Z 120000) then ineligible "KM > 120k"
          else eligible
      | HAPO =>
          if JS.gt age (JS.of_Z 10) then ineligible "Age > 10yr"
          else if JS.gt kms (JS.of_Z 200000) then ineligible "KM > 200k"
          else eligible
      | _ => eligible
      end
  end.

Definition hierarchy (s : PostReviewStatus) : Z :=
  match s with
  | HCUV => 4
  | HAPO => 3
  | CERTIFIED => 2
  | AS_IS_RETAIL => 1
  | WHOLESALE => 0
  end.

Definition determineMoveType (from to : PostReviewStatus) : MoveType :=
  let diff := hierarchy to - hierarchy from in
  if diff >? 0 then Upgrade
  else if diff <? 0 then Downgrade
  else Lateral.

(** What one call of [handleStatusChange] does before it reaches
    [saveCase]: it returns silently, alerts and returns, or builds the
    updated case that is then saved and handed to [onUpdateCase]. *)
Inductive Outcome : Type :=
| Ignored
| Alerted (message : string)
| Built (updatedCase : InspectionCase).

Definition ineligible_message (newStatus : PostReviewStatus)
    (why : option string) : string :=
  "Vehicle ineligible for " +:+ status_value newStatus +:+ ": "
    +:+ default "undefined" why.

Definition handleStatusChange (currentYear now : Z)
    (caseData : option InspectionCase) (newStatus : PostReviewStatus) : Outcome :=
  match caseData with
  | None => Ignored
  | Some c =>
      if decide (newStatus = currentStatus c) then Ignored
      else
        let eligibility := checkEligibility currentYear caseData newStatus in
        if negb (ok eligibility) then
          Alerted (ineligible_message newStatus (reason eligibility))
        else
          let entry :=
            {| from := currentStatus c;
               to := newStatus;
               entry_timestamp := now;
               type := determineMoveType (currentStatus c) newStatus |} in
          Built
            {| id := id c;
               timestamp := timestamp c;
               mode := mode c;
               vehicle := vehicle c;
               data := data c;
               analysis := analysis c;
               detectedTotal := detectedTotal c;
               currentStatus := newStatus;
               statusHistory := statusHistory c ++ [entry] |}
  end.

End AnalysisView.

(* ===================================================================== *)
(** * components/InspectionForm.tsx *)
(* ===================================================================== *)

Module InspectionForm.

(** [checkEligibility (prog)] over the form's [vehicle] state. *)
Definition checkEligibility (currentYear : Z) (v : Vehicle)
    (prog : InventoryProgram) : Eligibility :=
  let age := JS.sub (JS.of_Z currentYear) (year v) in
  let kms := kilometres v in
  match prog with
  | IP_HCUV =>
      if JS.gt age (JS.of_Z 6) then ineligible "Age > 6yrs"
      else if JS.gt kms (JS.of_Z 120000) then ineligible "KM > 120k"
      else eligible
  | IP_HAPO =>
      if JS.gt age (JS.of_Z 10) then ineligible "Age > 10yrs"
      else if JS.gt kms (JS.of_Z 200000) then ineligible "KM > 200k"
      else eligible
  | IP_CERTIFIED => eligible
  end.

(** The effect that runs whenever [vehicle.year] or [vehicle.kilometres]
    changes: the program selected afterwards. *)
Definition autoAdjustProgram (currentYear : Z) (v : Vehicle)
    (selected : InventoryProgram) : InventoryProgram :=
  let hcuv := checkEligibility currentYear v IP_HCUV in
  let hapo := checkEligibility currentYear v IP_HAPO in
  if bool_decide (selected = IP_HCUV) && negb (ok hcuv) then
    if ok hapo then IP_HAPO else IP_CERTIFIED
  else if bool_decide (selected = IP_HAPO) && negb (ok hapo) then
    IP_CERTIFIED
  else selected.

End InspectionForm.

(* ===================================================================== *)
(** * services/storageService.ts *)
(* ===================================================================== *)

Module StorageService.

(** The browser's [localStorage], restricted to the keys the gateway uses.
    [getLocal] parses the stored JSON array and yields [[]] for an absent
    key, so an absent key and an empty array are the same list here.
    Every write is assumed to fit the storage quota ([setLocal] swallows a
    failed write after alerting). *)
Record LocalStorage : Type := mkLocal {
  auto_audit_cases : list InspectionCase;
  ls_appraisers : list Appraiser;
  ls_technicians : list Technician;
  ls_standards : list StandardDocument;
  dealership_brand : option string
}.

(** The Supabase project, following [supabase_schema.sql]: every table is a
    finite map from its PRIMARY KEY (for [standards], the column the upsert
    conflicts on, [type UNIQUE]) to the remaining columns.  Columns filled
    by the database ([created_at], the generated [standards.id]) are left
    out.  The ISO-8601 conversion of timestamps at the boundary is the
    identity on epoch milliseconds. *)
Record StandardRow : Type := mkStandardRow {
  file_name : string;
  upload_date : Z;
  extracted_rules : string
}.

Record Supabase : Type := mkSupabase {
  settings : gmap string string;
  appraisers : gmap string string;
  technicians : gmap string (string * string);
  standards : gmap string StandardRow;
  inspection_cases : gmap string InspectionCase
}.

(** The [error] a Supabase call reports.  Only errors the schema itself
    produces are modelled: an [insert] whose primary key is already present
    violates the key's uniqueness. *)
Inductive PostgrestError : Type :=
| UniqueViolation (table key : string).

(** [supabase] is [null] when no credentials are configured; the browser's
    local storage exists either way. *)
Record Store : Type := mkStore {
  localStorage : LocalStorage;
  supabase : option Supabase
}.

(** The outcome of an [async] writer: the store afterwards and the error
    thrown, if any. *)
Definition WriteResult : Type := Store * option PostgrestError.

Definition set_local (st : Store) (l : LocalStorage) : Store :=
  {| localStorage := l; supabase := supabase st |}.

Definition set_cloud (st : Store) (db : Supabase) : Store :=
  {| localStorage := localStorage st; supabase := Some db |}.

Definition BRAND_KEY : string := "dealership_brand".

Definition saveBrand (brand : string) (st : Store) : WriteResult :=
  match supabase st with
  | None =>
      let l := localStorage st in
      (set_local st
         {| auto_audit_cases := auto_audit_cases l;
            ls_appraisers := ls_appraisers l;
            ls_technicians := ls_technicians l;
            ls_standards := ls_standards l;
            dealership_brand := Some brand |}, None)
  | Some db =>
      (set_cloud st
         {| settings := <[BRAND_KEY := brand]> (settings db);
            appraisers := appraisers db;
            technicians := technicians db;
            standards := standards db;
            inspection_cases := inspection_cases db |}, None)
  end.

Definition saveAppraiser (appraiser : Appraiser) (st : Store) : WriteResult :=
  match supabase st with
  | None =>
      let l := localStorage st in
      (set_local st
         {| auto_audit_cases := auto_audit_cases l;
            ls_appraisers := ls_appraisers l ++ [appraiser];
            ls_technicians := ls_technicians l;
            ls_standards := ls_standards l;
            dealership_brand := dealership_brand l |}, None)
  | Some db =>
      (* .from('appraisers').insert({ id, name }) *)
      match appraisers db !! app_id appraiser with
      | Some _ => (st, Some (UniqueViolation "appraisers" (app_id appraiser)))
      | None =>
          (set_cloud st
             {| settings := settings db;
                appraisers := <[app_id appraiser := app_name appraiser]> (appraisers db);
                technicians := technicians db;
                standards := standards db;
                inspection_cases := inspection_cases db |}, None)
      end
  end.

Definition saveTechnician (tech : Technician) (st : Store) : WriteResult :=
  match supabase st with
  | None =>
      let l := localStorage st in
      (set_local st
         {| auto_audit_cases := auto_audit_cases l;
            ls_appraisers := ls_appraisers l;
            ls_technicians := ls_technicians l ++ [tech];
            ls_standards := ls_standards l;
            dealership_brand := dealership_brand l |}, None)
  | Some db =>
      (* .from('technicians').insert({ id, name, tech_number }) *)
      match technicians db !! tech_id tech with
      | Some _ => (st, Some (UniqueViolation "technicians" (tech_id tech)))
      | None =>
          (set_cloud st
             {| settings := settings db;
                appraisers := appraisers db;
                technicians := <[tech_id tech := (tech_name tech, techNumber tech)]> (technicians db);
                standards := standards db;
                inspection_cases := inspection_cases db |}, None)
      end
  end.

(** [arr.findIndex(pred)] as an option: [None] stands for [-1]. *)
Definition findIndex {A} (pred : A -> bool) (arr : list A) : option nat :=
  fst <$> list_find (fun x => pred x = true) arr.

Definition saveCase (newCase : InspectionCase) (st : Store) : WriteResult :=
  match supabase st with
  | None =>
      let l := localStorage st in
      let cases := auto_audit_cases l in
      let cases' :=
        match findIndex (fun c => bool_decide (id c = id newCase)) cases with
        | Some existingIndex => <[existingIndex := newCase]> cases
        | None => newCase :: cases
        end in
      (set_local st
         {| auto_audit_cases := cases';
            ls_appraisers := ls_appraisers l;
            ls_technicians := ls_technicians l;
            ls_standards := ls_standards l;
            dealership_brand := dealership_brand l |}, None)
  | Some db =>
      (* .from('inspection_cases').upsert({ id, ... }) *)
      (set_cloud st
         {| settings := settings db;
            appraisers := appraisers db;
            technicians := technicians db;
            standards := standards db;
            inspection_cases := <[id newCase := newCase]> (inspection_cases db) |}, None)
  end.

Definition saveStandard (doc : StandardDocument) (st : Store) : WriteResult :=
  match supabase st with
  | None =>
      let l := localStorage st in
      let stds := ls_standards l in
      let stds' :=
        match findIndex (fun s => bool_decide (std_type s = std_type doc)) stds with
        | Some index => <[index := doc]> stds
        | None => stds ++ [doc]
        end in
      (set_local st
         {| auto_audit_cases := auto_audit_cases l;
            ls_appraisers := ls_appraisers l;
            ls_technicians := ls_technicians l;
            ls_standards := stds';
            dealership_brand := dealership_brand l |}, None)
  | Some db =>
      (* .from('standards').upsert({ type, ... }, { onConflict: 'type' }) *)
      (set_cloud st
         {| settings := settings db;
            appraisers := appraisers db;
            technicians := technicians db;
            standards :=
              <[std_type doc :=
                  {| file_name := fileName doc;
                     upload_date := uploadDate doc;
                     extracted_rules := extractedRules doc |}]> (standards db);
            inspection_cases := inspection_cases db |}, None)
  end.

(** [a] comes no later than [b] in a listing that is newest first. *)
Definition newer_or_same (a b : InspectionCase) : Prop :=
  timestamp b <= timestamp a.

#[global] Instance newer_or_same_dec a b : Decision (newer_or_same a b).
Proof. unfold newer_or_same. apply _. Defined.

(** [.select('*').order('timestamp', { ascending: false })]: the rows of the
    table, sorted by the database. *)
Definition select_cases_newest_first (db : Supabase) : list InspectionCase :=
  merge_sort newer_or_same (snd <$> map_to_list (inspection_cases db)).

Definition getAllCases (st : Store) : list InspectionCase :=
  match supabase st with
  | None => auto_audit_cases (localStorage st)
  | Some db => select_cases_newest_first db
  end.

(** ** getTechnicianProfiles *)

Record TechStats : Type := mkStats {
  stats_total : Q;
  stats_variance : Q;
  stats_count : nat
}.

(** A JavaScript [Map<string, TechStats>]: entries are kept in the order in
    which their keys were first set. *)
Definition TechMap : Type := list (string * TechStats).

Fixpoint techMap_get (name : string) (m : TechMap) : option TechStats :=
  match m with
  | [] => None
  | (k, v) :: rest => if decide (k = name) then Some v else techMap_get name rest
  end.

Fixpoint techMap_set (name : string) (v : TechStats) (m : TechMap) : TechMap :=
  match m with
  | [] => [(name, v)]
  | (k, w) :: rest =>
      if decide (k = name) then (k, v) :: rest
      else (k, w) :: techMap_set name v rest
  end.

(** The estimate difference of one case:
    [(serviceDepartmentEstimate || 0) - (managerAppraisalEstimate || 0)]. *)
Definition case_variance (c : InspectionCase) : Q :=
  (JS.or_zero (serviceDepartmentEstimate (data c))
   - JS.or_zero (managerAppraisalEstimate (data c)))%Q.

(** The body of [cases.forEach(c => ...)]. *)
Definition accumulate (techMap : TechMap) (c : InspectionCase) : TechMap :=
  let name := technicianName (data c) in
  if decide (name = "") then techMap
  else
    let stats :=
      default {| stats_total := 0; stats_variance := 0; stats_count := 0 |}
              (techMap_get name techMap) in
    techMap_set name
      {| stats_total := stats_total stats;
         stats_variance := (stats_variance stats + case_variance c)%Q;
         stats_count := S (stats_count stats) |}
      techMap.

(** The body of [Array.from(techMap.entries()).map(...)].  The division is
    by a count that is at least one. *)
Definition profile_of (entry : string * TechStats) : PerformanceStats :=
  let '(name, stats) := entry in
  let avgVariance :=
    (stats_variance stats / inject_Z (Z.of_nat (stats_count stats)))%Q in
  let tag :=
    if JS.Qgtb avgVariance 1500 then Aggressive
    else if JS.Qltb avgVariance (-500) then Passive
    else Accurate in
  {| perf_technicianName := name;
     perf_appraiserName := "";
     totalCases := stats_count stats;
     avgVariance := avgVariance;
     accuracyRating := JS.max 0 (100 - JS.abs avgVariance / 100)%Q;
     reliabilityTag := tag |}.

Definition profiles_of_cases (cases : list InspectionCase) : list PerformanceStats :=
  profile_of <$> foldl accumulate [] cases.


(** ** syncLocalToCloud *)

Record SyncResult : Type := mkSync {
  success : bool;
  count : nat
}.

(** [for (const x of items) { await save(x); count++; }]: stops at the first
    [save] that throws, with the count reached so far. *)
Fixpoint replay {A} (save : A -> Store -> WriteResult) (items : list A)
    (st : Store) (count : nat) : Store * nat * option PostgrestError :=
  match items with
  | [] => (st, count, None)
  | x :: rest =>
      match save x st with
      | (st', Some e) => (st', count, Some e)
      | (st', None) => replay save rest st' (S count)
      end
  end.

(** Sequencing inside the [try] block: a thrown error skips what follows. *)
Definition and_then (r : Store * nat * option PostgrestError)
    (k : Store -> nat -> Store * nat * option PostgrestError)
    : Store * nat * option PostgrestError :=
  match r with
  | (st, count, None) => k st count
  | (st, count, Some e) => (st, count, Some e)
  end.

Definition syncLocalToCloud (st : Store) : Store * SyncResult :=
  match supabase st with
  | None => (st, {| success := false; count := 0 |})
  | Some _ =>
      let l := localStorage st in
      let cases := auto_audit_cases l in
      let appraisers := ls_appraisers l in
      let technicians := ls_technicians l in
      let standards := ls_standards l in
      let brand := dealership_brand l in
      let sync_brand :=
        match brand with
        | Some b =>
            if decide (b = "") then (st, 0%nat, None)
            else replay saveBrand [b] st 0%nat
        | None => (st, 0%nat, None)
        end in
      let r :=
        and_then sync_brand (fun st count =>
        and_then (replay saveAppraiser appraisers st count) (fun st count =>
        and_then (replay saveTechnician technicians st count) (fun st count =>
        and_then (replay saveStandard standards st count) (fun st count =>
        replay saveCase cases st count)))) in
      match r with
      | (st', count, None) => (st', {| success := true; count := count |})
      | (st', count, Some _) => (st', {| success := false; count := count |})
      end
  end.

(** ** Readers and deleters *)




(** [deleteCase]; when it does not throw it returns [true]. *)
Definition deleteCase (case_id : string) (st : Store) : WriteResult :=
  match supabase st with
  | None =>
      let l := localStorage st in
      let cases := auto_audit_cases l in
      let filtered := filter (fun c => id c <> case_id) cases in
      (set_local st
         {| auto_audit_cases := filtered;
            ls_appraisers := ls_appraisers l;
            ls_technicians := ls_technicians l;
            ls_standards := ls_standards l;
            dealership_brand := dealership_brand l |}, None)
  | Some db =>
      (* .from('inspection_cases').delete().eq('id', id) *)
      (set_cloud st
         {| settings := settings db;
            appraisers := appraisers db;
            technicians := technicians db;
            standards := standards db;
            inspection_cases := delete case_id (inspection_cases db) |}, None)
  end.

(** ** getHistoricalContext *)


Section HistoricalContext.

(** [String.prototype.toLowerCase], a builtin of the host. *)
Variable toLowerCase : string -> string.



End HistoricalContext.

End StorageService.

(* ===================================================================== *)
(** * services/geminiService.ts *)
(* ===================================================================== *)

Module GeminiService.

(** A JavaScript string as its UTF-16 code units. *)
Definition jsstring : Type := list N.

Definition utf16 (s : string) : jsstring :=
  Ascii.N_of_ascii <$> String.list_ascii_of_string s.

Local Open Scope N_scope.

(** [\d] *)
Definition is_digit (u : N) : bool := (48 <=? u) && (u <=? 57).

(** [\s]: the white space and line terminator code points of ECMAScript. *)
Definition is_space (u : N) : bool :=
  bool_decide (u ∈ [9; 10; 11; 12; 13; 32; 160; 5760; 8232; 8233; 8239; 8287;
                    12288; 65279])
  || ((8192 <=? u) && (u <=? 8202)).

(** [[\d,.]] *)
Definition in_total_class (u : N) : bool :=
  is_digit u || (u =? 44) || (u =? 46).

Fixpoint take_while (p : N -> bool) (s : jsstring) : jsstring :=
  match s with
  | u :: rest => if p u then u :: take_while p rest else []
  | [] => []
  end.

Fixpoint drop_while (p : N -> bool) (s : jsstring) : jsstring :=
  match s with
  | u :: rest => if p u then drop_while p rest else s
  | [] => []
  end.

(** Matching a literal at the head of [s]: what follows it. *)
Fixpoint strip_literal (lit s : jsstring) : option jsstring :=
  match lit, s with
  | [], _ => Some s
  | a :: lit', b :: s' => if a =? b then strip_literal lit' s' else None
  | _ :: _, [] => None
  end.

(** [/\[DETECTED_TOTAL:\s*([\d,.]+)\]/] anchored at the head of [s]: the
    captured group.  Neither greedy quantifier can give characters back:
    [\s*] is followed by a class without white space, and [[\d,.]+] by a
    literal bracket outside the class. *)
Definition match_total_here (s : jsstring) : option jsstring :=
  match strip_literal (utf16 "[DETECTED_TOTAL:") s with
  | None => None
  | Some rest =>
      let rest := drop_while is_space rest in
      let group := take_while in_total_class rest in
      match group, drop_while in_total_class rest with
      | _ :: _, 93 :: _ => Some group
      | _, _ => None
      end
  end.

(** [fullText.match(...)]: the group of the leftmost match, [None] for
    [null]. *)
Fixpoint totalMatch (fullText : jsstring) : option jsstring :=
  match match_total_here fullText with
  | Some group => Some group
  | None =>
      match fullText with
      | [] => None
      | _ :: rest => totalMatch rest
      end
  end.

(** [s.replace(/,/g, '')] *)
Definition remove_commas (s : jsstring) : jsstring :=
  filter (fun u => u ≠ 44) s.

Definition decimal_value (digits : jsstring) : N :=
  foldl (fun acc u => 10 * acc + (u - 48)) 0 digits.

(** [parseFloat] on a string made of digits and dots, which is all that is
    left of the captured group once the commas are gone: the longest prefix
    that is a decimal literal, [NaN] when there is none. *)
Definition parseFloat (s : jsstring) : JS.number :=
  let int_part := take_while is_digit s in
  let frac_part :=
    match drop_while is_digit s with
    | 46 :: rest => take_while is_digit rest
    | _ => []
    end in
  match int_part, frac_part with
  | [], [] => JS.NaN
  | _, _ =>
      JS.Num (Z.of_N (decimal_value (int_part ++ frac_part))
              # Z.to_pos (10 ^ Z.of_nat (length frac_part)))
  end.

(** What [analyzeInspection] returns, as far as the case record uses it. *)
Record AnalysisResult : Type := mkResult {
  text : jsstring;
  result_detectedTotal : option JS.number
}.

(** The part of [analyzeInspection] after the model has answered with
    [fullText]. *)
Definition analysis_of_response (fullText : jsstring) : AnalysisResult :=
  let detectedTotal :=
    match totalMatch fullText with
    | Some group => Some (parseFloat (remove_commas group))
    | None => None
    end in
  {| text := fullText; result_detectedTotal := detectedTotal |}.

End GeminiService.

(* ===================================================================== *)
(** * App.tsx *)
(* ===================================================================== *)

Module App.

(** The [newCase] record built by [handleAnalyze]; [uuid] and [now] are the
    values of [crypto.randomUUID()] and [Date.now()]. *)
Definition newCase (uuid : string) (now : Z) (vehicle : Vehicle)
    (data : InspectionData) (mode : AnalysisMode)
    (result : GeminiService.AnalysisResult) : InspectionCase :=
  {| id := uuid;
     timestamp := now;
     mode := mode;
     vehicle := vehicle;
     data :=
       {| inspection_type := inspection_type data;
          program := program data;
          safetyOutcome := safetyOutcome data;
          hcuvOutcome := hcuvOutcome data;
          technicianNotes := technicianNotes data;
          technicianName := technicianName data;
          appraiserName := appraiserName data;
          appraiserNotes := appraiserNotes data;
          managerAppraisalEstimate := managerAppraisalEstimate data;
          serviceDepartmentEstimate :=
            JS.or_else (GeminiService.result_detectedTotal result)
                       (serviceDepartmentEstimate data);
          attachments := attachments data |};
     analysis := Some (GeminiService.text result);
     detectedTotal := GeminiService.result_detectedTotal result;
     currentStatus := program_as_status (program data);
     statusHistory := [] |}.

(** The state [handleStatusChange] works on: the case shown by the view
    ([activeCase]) and the store behind [saveCase]. *)
Record Session : Type := mkSession {
  activeCase : InspectionCase;
  store : StorageService.Store
}.

(** One status-change request: the status picked, and the clock readings
    [new Date().getFullYear()] and [Date.now()] at that moment. *)
Record StatusRequest : Type := mkRequest {
  newStatus : PostReviewStatus;
  currentYear : Z;
  now : Z
}.

Section Lifecycle.

(** The persistence call behind [await saveCase(updatedCase)].  It is kept
    abstract so that the lifecycle covers every behaviour of the gateway,
    including a failed write. *)
Variable saveCase :
  InspectionCase -> StorageService.Store -> StorageService.WriteResult.

(** A whole call of [handleStatusChange] with [onUpdateCase = setActiveCase]:
    when [saveCase] throws, [onUpdateCase] is not reached and the view keeps
    the case it had. *)
Definition status_change (s : Session) (r : StatusRequest) : Session :=
  match AnalysisView.handleStatusChange (currentYear r) (now r)
          (Some (activeCase s)) (newStatus r) with
  | AnalysisView.Built updatedCase =>
      match saveCase updatedCase (store s) with
      | (store', None) => {| activeCase := updatedCase; store := store' |}
      | (store', Some _) => {| activeCase := activeCase s; store := store' |}
      end
  | _ => s
  end.

(** The request passes both guards of [handleStatusChange] and is
    persisted. *)
Definition accepted (s : Session) (r : StatusRequest) : bool :=
  negb (bool_decide (newStatus r = currentStatus (activeCase s)))
  && ok (AnalysisView.checkEligibility (currentYear r) (Some (activeCase s))
           (newStatus r))
  && bool_decide (snd (saveCase
       match AnalysisView.handleStatusChange (currentYear r) (now r)
               (Some (activeCase s)) (newStatus r) with
       | AnalysisView.Built updatedCase => updatedCase
       | _ => activeCase s
       end (store s)) = None).

Definition run (s : Session) (requests : list StatusRequest) : Session :=
  foldl status_change s requests.

(** The number of accepted requests along a run. *)
Fixpoint accepted_count (s : Session) (requests : list StatusRequest) : nat :=
  match requests with
  | [] => 0
  | r :: rest =>
      (if accepted s r then 1 else 0) + accepted_count (status_change s r) rest
  end.

End Lifecycle.

End App.

(* ===================================================================== *)
(** * components/Dashboard.tsx *)
(* ===================================================================== *)

Module Dashboard.


Section Filters.

(** The calendar of the host ([Date], in the browser's time zone), as far as
    the filter uses it: whether a timestamp lies in the month of today, in
    the year of today, and between the start of one date string and the end
    of another. *)
Variable sameMonth : Z -> bool.
Variable sameYear : Z -> bool.
Variable withinDates : string -> string -> Z -> bool.

(** [String.prototype.toLowerCase] *)
Variable toLowerCase : string -> string.






End Filters.


(** The profiles of the leaderboard are those of
    [StorageService.getTechnicianProfiles], computed over the cases of the
    time range. *)
Definition techProfiles (timeFiltered : list InspectionCase)
    : list PerformanceStats :=
  StorageService.profiles_of_cases timeFiltered.

Definition totalVariance (timeFiltered : list InspectionCase) : Q :=
  foldl (fun acc curr => (acc + StorageService.case_variance curr)%Q) 0%Q
        timeFiltered.

Definition avgVariance (timeFiltered : list InspectionCase) : Q :=
  match length timeFiltered with
  | O => 0%Q
  | S _ => (totalVariance timeFiltered
            / inject_Z (Z.of_nat (length timeFiltered)))%Q
  end.




(** [profiles.sort((a, b) => b.accuracyRating - a.accuracyRating)]: the sort
    of the host is stable, so the outcome is that of inserting each profile,
    from the last to the first, before the first profile that is not rated
    higher. *)
Fixpoint insert_by_accuracy (p : PerformanceStats)
    (sorted : list PerformanceStats) : list PerformanceStats :=
  match sorted with
  | [] => [p]
  | q :: rest =>
      if Qle_bool (accuracyRating q) (accuracyRating p) then p :: q :: rest
      else q :: insert_by_accuracy p rest
  end.

Definition sort_by_accuracy (profiles : list PerformanceStats)
    : list PerformanceStats :=
  foldr insert_by_accuracy [] profiles.

(** [.slice(0, 5)] of the sorted profiles. *)
Definition leaderboard (profiles : list PerformanceStats) : list PerformanceStats :=
  take 5 (sort_by_accuracy profiles).

(** The rows of the table: [filteredCases.slice(0, 10)]. *)
Definition recentCases (filtered : list InspectionCase) : list InspectionCase :=
  take 10 filtered.

End Dashboard.
(* ===================================================================== *)
(** * Sample data and the vocabulary of the specification *)
(* ===================================================================== *)

(** Sample records for the worked examples. *)
Definition sample_vehicle (y km : JS.number) : Vehicle :=
  {| vin := "2HGFC2F59HH000001"; year := y; make := "Honda"; model := "Civic";
     trim := "LX"; kilometres := km; stockNumber := None;
     acquisitionType := "Trade" |}.

Definition sample_data (prog : InventoryProgram) (tech : string)
    (manager service : option JS.number) : InspectionData :=
  {| inspection_type := BOTH; program := prog; safetyOutcome := PASS;
     hcuvOutcome := FAIL; technicianNotes := ""; technicianName := tech;
     appraiserName := ""; appraiserNotes := "";
     managerAppraisalEstimate := manager;
     serviceDepartmentEstimate := service; attachments := [] |}.

Definition sample_case (uuid : string) (stamp : Z) (y km : JS.number)
    (status : PostReviewStatus) : InspectionCase :=
  {| id := uuid; timestamp := stamp; mode := AUDIT;
     vehicle := sample_vehicle y km;
     data := sample_data IP_HCUV "" None None;
     analysis := None; detectedTotal := None;
     currentStatus := status; statusHistory := [] |}.


(** The fallback priority of program selection at intake, as the
    specification words it: top tier, then mid tier, then generic
    certified. *)
Definition fallback_priority : list InventoryProgram :=
  [IP_HCUV; IP_HAPO; IP_CERTIFIED].

(** The programs from [selected] downwards in the priority order. *)
Fixpoint from_selected (selected : InventoryProgram)
    (order : list InventoryProgram) : list InventoryProgram :=
  match order with
  | [] => []
  | p :: rest =>
      if decide (p = selected) then order else from_selected selected rest
  end.

(** The best eligible fallback: the first program, from the selected one
    downwards, that passes the check. *)
Definition best_eligible (check : InventoryProgram -> Eligibility)
    (selected : InventoryProgram) : option InventoryProgram :=
  head (filter (fun p => ok (check p) = true)
               (from_selected selected fallback_priority)).

(** The rank order of the statuses as the specification words it, highest
    first: TopTier > MidTier > GenericCertified > AsIsRetail > Wholesale. *)
Definition rank_order : list PostReviewStatus :=
  [HCUV; HAPO; CERTIFIED; AS_IS_RETAIL; WHOLESALE].

(** The place of a status in [rank_order], counted from the top. *)
Definition place (s : PostReviewStatus) : nat :=
  default 0%nat (fst <$> list_find (fun x => x = s) rank_order).

(** [a] has strictly higher rank than [b]. *)
Definition outranks (a b : PostReviewStatus) : Prop :=
  (place a < place b)%nat.

(** The case's current status agrees with its history: it is the [to] of the
    last entry, or [initial] when there is no entry. *)
Definition status_consistent (initial : PostReviewStatus)
    (c : InspectionCase) : Prop :=
  currentStatus c = List.last (to <$> statusHistory c) initial.


Definition empty_local : StorageService.LocalStorage :=
  {| StorageService.auto_audit_cases := [];
     StorageService.ls_appraisers := [];
     StorageService.ls_technicians := [];
     StorageService.ls_standards := [];
     StorageService.dealership_brand := None |}.

Definition local_only (l : StorageService.LocalStorage) : StorageService.Store :=
  {| StorageService.localStorage := l; StorageService.supabase := None |}.

(** A session over the local store for a 2015 vehicle first filed as generic
    certified, and four requests made in 2024: top tier (too old), wholesale,
    wholesale again, mid tier. *)
Definition sample_session : App.Session :=
  {| App.activeCase :=
       sample_case "c-1" 1000 (JS.of_Z 2015) (JS.Num 80000) CERTIFIED;
     App.store := local_only empty_local |}.

Definition sample_requests : list App.StatusRequest :=
  [ {| App.newStatus := HCUV; App.currentYear := 2024; App.now := 2000 |};
    {| App.newStatus := WHOLESALE; App.currentYear := 2024; App.now := 3000 |};
    {| App.newStatus := WHOLESALE; App.currentYear := 2024; App.now := 4000 |};
    {| App.newStatus := HAPO; App.currentYear := 2024; App.now := 5000 |} ].





(** Three appraisers kept locally; the first two are already in the cloud
    table under the same ids. *)
Definition ann : Appraiser := {| app_id := "a-1"; app_name := "Ann" |}.
Definition bob : Appraiser := {| app_id := "a-2"; app_name := "Bob" |}.
Definition cyd : Appraiser := {| app_id := "a-3"; app_name := "Cyd" |}.

Definition half_synced_cloud : StorageService.Supabase :=
  {| StorageService.settings := ∅;
     StorageService.appraisers := <["a-1" := "Ann"]> (<["a-2" := "Bob"]> ∅);
     StorageService.technicians := ∅;
     StorageService.standards := ∅;
     StorageService.inspection_cases := ∅ |}.

Definition half_synced_store : StorageService.Store :=
  {| StorageService.localStorage :=
       {| StorageService.auto_audit_cases := [];
          StorageService.ls_appraisers := [ann; bob; cyd];
          StorageService.ls_technicians := [];
          StorageService.ls_standards := [];
          StorageService.dealership_brand := None |};
     StorageService.supabase := Some half_synced_cloud |}.

(** The same local data before anything was synced. *)
Definition unsynced_store : StorageService.Store :=
  {| StorageService.localStorage := StorageService.localStorage half_synced_store;
     StorageService.supabase :=
       Some {| StorageService.settings := ∅;
               StorageService.appraisers := ∅;
               StorageService.technicians := ∅;
               StorageService.standards := ∅;
               StorageService.inspection_cases := ∅ |} |}.

(** Two cases whose timestamps run against the order in which they are
    saved. *)
Definition later_case : InspectionCase :=
  sample_case "c-late" 200 (JS.of_Z 2020) (JS.Num 40000) CERTIFIED.
Definition earlier_case : InspectionCase :=
  sample_case "c-early" 100 (JS.of_Z 2020) (JS.Num 40000) CERTIFIED.

(** The local store after [saveCase(later_case)] and then
    [saveCase(earlier_case)]. *)
Definition out_of_order_store : StorageService.Store :=
  fst (StorageService.saveCase earlier_case
         (fst (StorageService.saveCase later_case (local_only empty_local)))).











(** The identifiers of the cases a store lists. *)
Definition listed_ids (st : StorageService.Store) : list string :=
  id <$> StorageService.getAllCases st.

(** A store in which a case identifier names one case: locally the array
    holds no two cases with the same [id]; in the cloud every row sits under
    the key that is its own [id] column. *)
Definition well_keyed (st : StorageService.Store) : Prop :=
  match StorageService.supabase st with
  | None => NoDup (id <$> StorageService.auto_audit_cases (StorageService.localStorage st))
  | Some db =>
      forall k c, StorageService.inspection_cases db !! k = Some c -> id c = k
  end.










(** ** The vocabulary of the sync *)

(** A store in cloud mode. *)
Definition cloud_store (l : StorageService.LocalStorage)
    (db : StorageService.Supabase) : StorageService.Store :=
  {| StorageService.localStorage := l; StorageService.supabase := Some db |}.

(** One record of the browser store on its way to the cloud. *)
Inductive Upload : Type :=
| UpBrand (brand : string)
| UpAppraiser (a : Appraiser)
| UpTechnician (t : Technician)
| UpStandard (doc : StandardDocument)
| UpCase (c : InspectionCase).

(** The cloud tables once a record has been written. *)
Definition apply_upload (db : StorageService.Supabase) (u : Upload)
    : StorageService.Supabase :=
  match u with
  | UpBrand brand =>
      {| StorageService.settings :=
           <[StorageService.BRAND_KEY := brand]> (StorageService.settings db);
         StorageService.appraisers := StorageService.appraisers db;
         StorageService.technicians := StorageService.technicians db;
         StorageService.standards := StorageService.standards db;
         StorageService.inspection_cases := StorageService.inspection_cases db |}
  | UpAppraiser a =>
      {| StorageService.settings := StorageService.settings db;
         StorageService.appraisers :=
           <[app_id a := app_name a]> (StorageService.appraisers db);
         StorageService.technicians := StorageService.technicians db;
         StorageService.standards := StorageService.standards db;
         StorageService.inspection_cases := StorageService.inspection_cases db |}
  | UpTechnician t =>
      {| StorageService.settings := StorageService.settings db;
         StorageService.appraisers := StorageService.appraisers db;
         StorageService.technicians :=
           <[tech_id t := (tech_name t, techNumber t)]> (StorageService.technicians db);
         StorageService.standards := StorageService.standards db;
         StorageService.inspection_cases := StorageService.inspection_cases db |}
  | UpStandard doc =>
      {| StorageService.settings := StorageService.settings db;
         StorageService.appraisers := StorageService.appraisers db;
         StorageService.technicians := StorageService.technicians db;
         StorageService.standards :=
           <[std_type doc :=
               {| StorageService.file_name := fileName doc;
                  StorageService.upload_date := uploadDate doc;
                  StorageService.extracted_rules := extractedRules doc |}]>
             (StorageService.standards db);
         StorageService.inspection_cases := StorageService.inspection_cases db |}
  | UpCase c =>
      {| StorageService.settings := StorageService.settings db;
         StorageService.appraisers := StorageService.appraisers db;
         StorageService.technicians := StorageService.technicians db;
         StorageService.standards := StorageService.standards db;
         StorageService.inspection_cases :=
           <[id c := c]> (StorageService.inspection_cases db) |}
  end.

(** The brand as the sync sees it: a stored, non-empty string. *)
Definition brand_upload (l : StorageService.LocalStorage) : list Upload :=
  match StorageService.dealership_brand l with
  | Some b => if decide (b = "") then [] else [UpBrand b]
  | None => []
  end.

(** The records of the browser store in the order the sync replays them:
    brand, appraisers, technicians, standards, cases. *)
Definition uploads_of (l : StorageService.LocalStorage) : list Upload :=
  brand_upload l
  ++ (UpAppraiser <$> StorageService.ls_appraisers l)
  ++ (UpTechnician <$> StorageService.ls_technicians l)
  ++ (UpStandard <$> StorageService.ls_standards l)
  ++ (UpCase <$> StorageService.auto_audit_cases l).

(** The outcome of a stretch of the sync, started on the tables [db] with
    the count [n]: the first [k] of the records [ups] were written, in
    order, the count advanced by [k], and an error was thrown exactly when
    records are left. *)
Definition reaches (l : StorageService.LocalStorage)
    (db : StorageService.Supabase) (n : nat) (ups : list Upload)
    (r : StorageService.Store * nat * option StorageService.PostgrestError)
    : Prop :=
  exists k,
    (k <= length ups)%nat
    /\ r.1.1 = cloud_store l (foldl apply_upload db (take k ups))
    /\ r.1.2 = (n + k)%nat
    /\ (r.2 = None <-> k = length ups).

(** A writer that, in cloud mode, either writes its record or throws and
    leaves the tables alone. *)
Definition cloud_writer {A} (save : A -> StorageService.Store -> StorageService.WriteResult)
    (up : A -> Upload) : Prop :=
  forall x l db,
    save x (cloud_store l db) = (cloud_store l (apply_upload db (up x)), None)
    \/ exists e, save x (cloud_store l db) = (cloud_store l db, Some e).

(** The keys of the five cloud tables only grow from [db] to [db']. *)
Definition keeps_rows (db db' : StorageService.Supabase) : Prop :=
  dom (StorageService.settings db) ⊆ dom (StorageService.settings db')
  /\ dom (StorageService.appraisers db) ⊆ dom (StorageService.appraisers db')
  /\ dom (StorageService.technicians db) ⊆ dom (StorageService.technicians db')
  /\ dom (StorageService.standards db) ⊆ dom (StorageService.standards db')
  /\ dom (StorageService.inspection_cases db)
       ⊆ dom (StorageService.inspection_cases db').


(** What a record writes, table by table: the key and the row. *)
Definition setting_entry (u : Upload) : option (string * string) :=
  match u with
  | UpBrand brand => Some (StorageService.BRAND_KEY, brand)
  | _ => None
  end.

Definition appraiser_entry (u : Upload) : option (string * string) :=
  match u with
  | UpAppraiser a => Some (app_id a, app_name a)
  | _ => None
  end.

Definition technician_entry (u : Upload) : option (string * (string * string)) :=
  match u with
  | UpTechnician t => Some (tech_id t, (tech_name t, techNumber t))
  | _ => None
  end.

Definition standard_row (doc : StandardDocument) : StorageService.StandardRow :=
  {| StorageService.file_name := fileName doc;
     StorageService.upload_date := uploadDate doc;
     StorageService.extracted_rules := extractedRules doc |}.

Definition standard_entry (u : Upload)
    : option (string * StorageService.StandardRow) :=
  match u with
  | UpStandard doc => Some (std_type doc, standard_row doc)
  | _ => None
  end.

Definition case_entry (u : Upload) : option (string * InspectionCase) :=
  match u with
  | UpCase c => Some (id c, c)
  | _ => None
  end.

(** Writing a list of rows into a table, one after the other. *)
Definition put_all {V} (m : gmap string V) (rows : list (string * V))
    : gmap string V :=
  foldl (fun m kv => <[kv.1 := kv.2]> m) m rows.




(** ** The vocabulary of the lifecycle *)

(** [{ ...d, program: p }] *)
Definition set_program (d : InspectionData) (p : InventoryProgram) : InspectionData :=
  {| inspection_type := inspection_type d;
     program := p;
     safetyOutcome := safetyOutcome d;
     hcuvOutcome := hcuvOutcome d;
     technicianNotes := technicianNotes d;
     technicianName := technicianName d;
     appraiserName := appraiserName d;
     appraiserNotes := appraiserNotes d;
     managerAppraisalEstimate := managerAppraisalEstimate d;
     serviceDepartmentEstimate := serviceDepartmentEstimate d;
     attachments := attachments d |}.

(** The place of a program in [fallback_priority], counted from the top. *)
Definition priority (p : InventoryProgram) : nat :=
  match p with
  | IP_HCUV => 0
  | IP_HAPO => 1
  | IP_CERTIFIED => 2
  end.

(** A history that reads as one walk from [start]: every entry leaves the
    status the walk has reached, goes to a different status, and carries
    the classification of that move. *)
Fixpoint chained (start : PostReviewStatus) (history : list StatusHistoryEntry)
    : Prop :=
  match history with
  | [] => True
  | e :: rest =>
      from e = start
      /\ to e <> from e
      /\ type e = AnalysisView.determineMoveType (from e) (to e)
      /\ chained (to e) rest
  end.

(** ** The vocabulary of the aggregates *)




(** The names of a list in the order in which each is first met. *)
Definition first_seen (names : list string) : list string :=
  foldl (fun seen n => if decide (n ∈ seen) then seen else seen ++ [n]) [] names.

(** The technician names of the cases that have one. *)
Definition technician_names (cases : list InspectionCase) : list string :=
  filter (fun n => n <> "") ((fun c => technicianName (data c)) <$> cases).




(** [a] is rated at least as high as [b]. *)
Definition rated_no_lower (a b : PerformanceStats) : Prop :=
  (accuracyRating b <= accuracyRating a)%Q.

(** A profile with a given name and rating, for the leaderboard example. *)
Definition rated (name : string) (rating : Q) : PerformanceStats :=
  {| perf_technicianName := name; perf_appraiserName := ""; totalCases := 1;
     avgVariance := 0; accuracyRating := rating; reliabilityTag := Accurate |}.

Definition seven_profiles : list PerformanceStats :=
  [rated "A" 70; rated "B" 95; rated "C" 20; rated "D" 88; rated "E" 95;
   rated "F" 60; rated "G" 99].

(** ** Decimal numerals *)

(** The code units of a decimal numeral. *)
Fixpoint units_of_uint (d : Decimal.uint) : GeminiService.jsstring :=
  match d with
  | Decimal.Nil => []
  | Decimal.D0 d => 48%N :: units_of_uint d
  | Decimal.D1 d => 49%N :: units_of_uint d
  | Decimal.D2 d => 50%N :: units_of_uint d
  | Decimal.D3 d => 51%N :: units_of_uint d
  | Decimal.D4 d => 52%N :: units_of_uint d
  | Decimal.D5 d => 53%N :: units_of_uint d
  | Decimal.D6 d => 54%N :: units_of_uint d
  | Decimal.D7 d => 55%N :: units_of_uint d
  | Decimal.D8 d => 56%N :: units_of_uint d
  | Decimal.D9 d => 57%N :: units_of_uint d
  end.

(** The decimal numeral of a natural number, as text. *)
Definition decimal (n : nat) : GeminiService.jsstring :=
  units_of_uint (Nat.to_uint n).
(* ===================================================================== *)
(** * Properties *)
(* ===================================================================== *)

(** ** Comparisons of JavaScript numbers *)

Lemma Qgtb_true (x y : Q) : JS.Qgtb x y = true <-> (y < x)%Q.
Proof.
  unfold JS.Qgtb. rewrite negb_true_iff, <- not_true_iff_false, Qle_bool_iff.
  split; [apply Qnot_le_lt | apply Qlt_not_le].
Qed.

Lemma Qgtb_false (x y : Q) : JS.Qgtb x y = false <-> (x <= y)%Q.
Proof. unfold JS.Qgtb. rewrite negb_false_iff. apply Qle_bool_iff. Qed.



(** The age test [currentYear - year > limit] on whole years. *)
Lemma age_gt_true (currentYear y limit : Z) :
  JS.gt (JS.sub (JS.of_Z currentYear) (JS.of_Z y)) (JS.of_Z limit) = true
  <-> limit < currentYear - y.
Proof.
  cbn [JS.gt JS.sub JS.of_Z]. rewrite Qgtb_true.
  unfold Qminus. rewrite <- inject_Z_opp, <- inject_Z_plus, <- Zlt_Qlt. lia.
Qed.

Lemma age_gt_false (currentYear y limit : Z) :
  JS.gt (JS.sub (JS.of_Z currentYear) (JS.of_Z y)) (JS.of_Z limit) = false
  <-> currentYear - y <= limit.
Proof.
  rewrite <- not_true_iff_false, age_gt_true. lia.
Qed.

(** The odometer test [kms > limit]. *)
Lemma km_gt_true (km : Q) (limit : Z) :
  JS.gt (JS.Num km) (JS.of_Z limit) = true <-> (inject_Z limit < km)%Q.
Proof. cbn [JS.gt JS.of_Z]. apply Qgtb_true. Qed.

Lemma km_gt_false (km : Q) (limit : Z) :
  JS.gt (JS.Num km) (JS.of_Z limit) = false <-> (km <= inject_Z limit)%Q.
Proof. cbn [JS.gt JS.of_Z]. apply Qgtb_false. Qed.

Lemma gt_NaN_l (b : JS.number) : JS.gt JS.NaN b = false.
Proof. reflexivity. Qed.

Lemma gt_sub_NaN (a b : JS.number) : JS.gt (JS.sub a JS.NaN) b = false.
Proof. destruct a; reflexivity. Qed.

(** Settles the threshold tests of a check once the side of each limit is
    among the hypotheses. *)
Ltac settle_thresholds currentYear y km :=
  repeat match goal with
  | |- context [JS.gt (JS.sub _ _) (JS.of_Z ?n)] =>
      first
        [ rewrite (proj2 (age_gt_true currentYear y n)) by lia
        | rewrite (proj2 (age_gt_false currentYear y n)) by lia ]
  | |- context [JS.gt (JS.Num km) (JS.of_Z ?n)] =>
      first
        [ rewrite (proj2 (km_gt_true km n)) by assumption
        | rewrite (proj2 (km_gt_false km n)) by assumption ]
  end.

(** ** Eligibility *)

(** C2.  Both eligibility checks (the one of the analysis view, over
    statuses, and the one of the intake form, over programs) follow the
    threshold table: generic certified, wholesale and as-is retail are
    eligible whatever the vehicle; for the top-tier target an age above 6
    years gives the age reason, also when the odometer is over its limit as
    well, an age of at most 6 with more than 120,000 km gives the odometer
    reason, and anything else is eligible; the mid-tier target does the same
    with 10 years and 200,000 km. *)
Theorem eligibility_thresholds (currentYear : Z) (c : InspectionCase) :
  let view := AnalysisView.checkEligibility currentYear (Some c) in
  let form := InspectionForm.checkEligibility currentYear (vehicle c) in
  (view CERTIFIED = eligible /\ view WHOLESALE = eligible
   /\ view AS_IS_RETAIL = eligible /\ form IP_CERTIFIED = eligible)
  /\ forall (y : Z) (km : Q),
      year (vehicle c) = JS.of_Z y ->
      kilometres (vehicle c) = JS.Num km ->
      let age := currentYear - y in
      (6 < age ->
         view HCUV = ineligible "Age > 6yr"
         /\ form IP_HCUV = ineligible "Age > 6yrs")
      /\ (age <= 6 -> (120000 < km)%Q ->
         view HCUV = ineligible "KM > 120k"
         /\ form IP_HCUV = ineligible "KM > 120k")
      /\ (age <= 6 -> (km <= 120000)%Q ->
         view HCUV = eligible /\ form IP_HCUV = eligible)
      /\ (10 < age ->
         view HAPO = ineligible "Age > 10yr"
         /\ form IP_HAPO = ineligible "Age > 10yrs")
      /\ (age <= 10 -> (200000 < km)%Q ->
         view HAPO = ineligible "KM > 200k"
         /\ form IP_HAPO = ineligible "KM > 200k")
      /\ (age <= 10 -> (km <= 200000)%Q ->
         view HAPO = eligible /\ form IP_HAPO = eligible).
Proof.
  intros view form. split; [by repeat split |].
  intros y km Hy Hkm age.
  subst view form.
  unfold AnalysisView.checkEligibility, InspectionForm.checkEligibility.
  rewrite Hy, Hkm.
  subst age.
  repeat split; intros; settle_thresholds currentYear y km; reflexivity.
Qed.

(** The example of the specification: age 7, 50,000 km, top tier. *)
Lemma eligibility_thresholds_witness :
  AnalysisView.checkEligibility 2024
    (Some (sample_case "c-1" 0 (JS.of_Z 2017) (JS.Num 50000) CERTIFIED)) HCUV
  = ineligible "Age > 6yr".
Proof.
  pose proof (eligibility_thresholds 2024
    (sample_case "c-1" 0 (JS.of_Z 2017) (JS.Num 50000) CERTIFIED)) as [_ H].
  destruct (H 2017 50000%Q eq_refl eq_refl) as [Hage _].
  apply Hage. reflexivity.
Defined.

(** Every call of either check returns a verdict. *)
Lemma view_verdict (currentYear : Z) (caseData : option InspectionCase)
    (status : PostReviewStatus) :
  AnalysisView.checkEligibility currentYear caseData status = eligible
  \/ exists why,
       AnalysisView.checkEligibility currentYear caseData status = ineligible why.
Proof.
  unfold AnalysisView.checkEligibility.
  destruct caseData, status; repeat case_match; eauto.
Qed.

Lemma form_verdict (currentYear : Z) (v : Vehicle) (prog : InventoryProgram) :
  InspectionForm.checkEligibility currentYear v prog = eligible
  \/ exists why,
       InspectionForm.checkEligibility currentYear v prog = ineligible why.
Proof.
  unfold InspectionForm.checkEligibility.
  destruct prog; repeat case_match; eauto.
Qed.

(** C9 (as stated, refuted).  A vehicle whose year and odometer are both
    [NaN], as left by a failed decode or an unparsable field, is not
    rejected: both checks answer with the verdict "eligible" for the top
    tier. *)
Lemma eligibility_accepts_nan :
  AnalysisView.checkEligibility 2024
    (Some (sample_case "c-9" 0 JS.NaN JS.NaN CERTIFIED)) HCUV = eligible
  /\ InspectionForm.checkEligibility 2024
       (sample_vehicle JS.NaN JS.NaN) IP_HCUV = eligible.
Proof. split; reflexivity. Qed.

(** C9 (amended).  The eligibility checks have no failure mode: on every
    input they answer with a verdict.  A comparison with [NaN] is false, so
    a non-numeric year passes every age test and a non-numeric odometer
    passes every odometer test: with both non-numeric every target is
    eligible, with a non-numeric year the odometer alone decides, and with a
    non-numeric odometer the age alone decides. *)
Theorem eligibility_never_fails (currentYear : Z) (c : InspectionCase) :
  let view := AnalysisView.checkEligibility currentYear (Some c) in
  let form := InspectionForm.checkEligibility currentYear (vehicle c) in
  (forall status, view status = eligible \/ exists why, view status = ineligible why)
  /\ (forall prog, form prog = eligible \/ exists why, form prog = ineligible why)
  /\ (year (vehicle c) = JS.NaN -> kilometres (vehicle c) = JS.NaN ->
      (forall status, view status = eligible)
      /\ (forall prog, form prog = eligible))
  /\ (year (vehicle c) = JS.NaN ->
      forall km : Q, kilometres (vehicle c) = JS.Num km ->
      ((120000 < km)%Q ->
         view HCUV = ineligible "KM > 120k" /\ form IP_HCUV = ineligible "KM > 120k")
      /\ ((km <= 120000)%Q -> view HCUV = eligible /\ form IP_HCUV = eligible)
      /\ ((200000 < km)%Q ->
         view HAPO = ineligible "KM > 200k" /\ form IP_HAPO = ineligible "KM > 200k")
      /\ ((km <= 200000)%Q -> view HAPO = eligible /\ form IP_HAPO = eligible))
  /\ (kilometres (vehicle c) = JS.NaN ->
      forall y : Z, year (vehicle c) = JS.of_Z y ->
      (6 < currentYear - y ->
         view HCUV = ineligible "Age > 6yr" /\ form IP_HCUV = ineligible "Age > 6yrs")
      /\ (currentYear - y <= 6 -> view HCUV = eligible /\ form IP_HCUV = eligible)
      /\ (10 < currentYear - y ->
         view HAPO = ineligible "Age > 10yr" /\ form IP_HAPO = ineligible "Age > 10yrs")
      /\ (currentYear - y <= 10 -> view HAPO = eligible /\ form IP_HAPO = eligible)).
Proof.
  intros view form. subst view form.
  split; [intros; apply view_verdict |].
  split; [intros; apply form_verdict |].
  unfold AnalysisView.checkEligibility, InspectionForm.checkEligibility.
  split; [| split].
  - intros -> ->. split; intros []; rewrite ?gt_sub_NaN; reflexivity.
  - intros -> km ->. rewrite !gt_sub_NaN.
    repeat split; intros; settle_thresholds currentYear 0 km; reflexivity.
  - intros -> y ->.
    repeat split; intros; settle_thresholds currentYear y 0%Q; reflexivity.
Qed.

(** A vehicle whose year and odometer are both [NaN] is eligible for the
    top tier and for the mid tier. *)
Lemma eligibility_never_fails_witness :
  AnalysisView.checkEligibility 2024
    (Some (sample_case "c-9" 0 JS.NaN JS.NaN CERTIFIED)) HCUV = eligible
  /\ AnalysisView.checkEligibility 2024
       (Some (sample_case "c-9" 0 JS.NaN JS.NaN CERTIFIED)) HAPO = eligible.
Proof.
  pose proof (eligibility_never_fails 2024
    (sample_case "c-9" 0 JS.NaN JS.NaN CERTIFIED)) as (_ & _ & H & _).
  destruct (H eq_refl eq_refl) as [Hview _].
  split; apply Hview.
Defined.

(** ** Program selection at intake *)

(** C5.  When the year or the odometer changes, the intake form keeps an
    eligible selection, turns an ineligible top-tier selection into mid tier
    when mid tier is eligible and into generic certified otherwise, and
    turns an ineligible mid-tier selection into generic certified; the
    outcome is the best eligible program from the selected one downwards in
    the order top tier, mid tier, generic certified. *)
Theorem auto_downgrade_selection (currentYear : Z) (v : Vehicle)
    (selected : InventoryProgram) :
  let check := InspectionForm.checkEligibility currentYear v in
  let adjusted := InspectionForm.autoAdjustProgram currentYear v selected in
  (ok (check selected) = true -> adjusted = selected)
  /\ (selected = IP_HCUV -> ok (check IP_HCUV) = false ->
      ok (check IP_HAPO) = true -> adjusted = IP_HAPO)
  /\ (selected = IP_HCUV -> ok (check IP_HCUV) = false ->
      ok (check IP_HAPO) = false -> adjusted = IP_CERTIFIED)
  /\ (selected = IP_HAPO -> ok (check IP_HAPO) = false ->
      adjusted = IP_CERTIFIED)
  /\ best_eligible check selected = Some adjusted.
Proof.
  intros check adjusted. subst adjusted.
  unfold InspectionForm.autoAdjustProgram, best_eligible. fold check.
  assert (Hcert : ok (check IP_CERTIFIED) = true) by reflexivity.
  destruct selected; cbn [from_selected fallback_priority];
    repeat case_decide; try congruence;
    rewrite ?bool_decide_eq_true_2, ?bool_decide_eq_false_2 by congruence;
    cbn [andb];
    destruct (ok (check IP_HCUV)) eqn:Hc, (ok (check IP_HAPO)) eqn:Ha;
    cbn [negb];
    repeat split; intros; try congruence;
    rewrite ?filter_cons, ?filter_nil; repeat case_decide; try congruence;
    reflexivity.
Qed.

(** A 2012 vehicle in 2024 (age 12): a top-tier selection falls through to
    generic certified. *)
Lemma auto_downgrade_selection_witness :
  InspectionForm.autoAdjustProgram 2024
    (sample_vehicle (JS.of_Z 2012) (JS.Num 90000)) IP_HCUV = IP_CERTIFIED.
Proof.
  pose proof (auto_downgrade_selection 2024
    (sample_vehicle (JS.of_Z 2012) (JS.Num 90000)) IP_HCUV) as (_ & _ & H & _).
  apply H; reflexivity.
Defined.

(** ** Classification of a move *)

Lemma determineMoveType_ranks (from to : PostReviewStatus) :
  (AnalysisView.determineMoveType from to = Upgrade <-> outranks to from)
  /\ (AnalysisView.determineMoveType from to = Downgrade <-> outranks from to)
  /\ (AnalysisView.determineMoveType from to = Lateral <-> from = to).
Proof.
  unfold outranks.
  destruct from, to; vm_compute; repeat split; intros; try congruence; try lia.
Qed.

(** What an accepted request builds. *)
Lemma handleStatusChange_built (currentYear now : Z) (c updated : InspectionCase)
    (newStatus : PostReviewStatus) :
  AnalysisView.handleStatusChange currentYear now (Some c) newStatus
    = AnalysisView.Built updated ->
  newStatus <> currentStatus c
  /\ ok (AnalysisView.checkEligibility currentYear (Some c) newStatus) = true
  /\ updated =
       {| id := id c; timestamp := timestamp c; mode := mode c;
          vehicle := vehicle c; data := data c; analysis := analysis c;
          detectedTotal := detectedTotal c; currentStatus := newStatus;
          statusHistory := statusHistory c ++
            [{| from := currentStatus c; to := newStatus;
                entry_timestamp := now;
                type := AnalysisView.determineMoveType (currentStatus c) newStatus |}] |}.
Proof.
  unfold AnalysisView.handleStatusChange.
  case_decide; [discriminate |].
  destruct (ok (AnalysisView.checkEligibility currentYear (Some c) newStatus));
    cbn [negb]; [| discriminate].
  intros [= <-]. auto.
Qed.

(** C4.  The classification follows the rank order top tier > mid tier >
    generic certified > as-is retail > wholesale: between two distinct
    statuses it is [Upgrade] exactly when the target outranks the source,
    [Downgrade] exactly when the source outranks the target, and never
    [Lateral]; top tier to wholesale is a downgrade and wholesale to top
    tier an upgrade; and the entry appended by an accepted status change
    carries this classification of the move from the previous status to the
    requested one. *)
Theorem move_classification :
  (forall from to : PostReviewStatus, from <> to ->
     (AnalysisView.determineMoveType from to = Upgrade <-> outranks to from)
     /\ (AnalysisView.determineMoveType from to = Downgrade <-> outranks from to)
     /\ AnalysisView.determineMoveType from to <> Lateral)
  /\ AnalysisView.determineMoveType HCUV WHOLESALE = Downgrade
  /\ AnalysisView.determineMoveType WHOLESALE HCUV = Upgrade
  /\ (forall currentYear now c newStatus updated,
        AnalysisView.handleStatusChange currentYear now (Some c) newStatus
          = AnalysisView.Built updated ->
        exists entry,
          statusHistory updated = statusHistory c ++ [entry]
          /\ from entry = currentStatus c /\ to entry = newStatus
          /\ from entry <> to entry
          /\ (type entry = Upgrade <-> outranks newStatus (currentStatus c))
          /\ (type entry = Downgrade <-> outranks (currentStatus c) newStatus)
          /\ type entry <> Lateral).
Proof.
  assert (Hdistinct : forall from to : PostReviewStatus, from <> to ->
     (AnalysisView.determineMoveType from to = Upgrade <-> outranks to from)
     /\ (AnalysisView.determineMoveType from to = Downgrade <-> outranks from to)
     /\ AnalysisView.determineMoveType from to <> Lateral).
  { intros from to Hne.
    destruct (determineMoveType_ranks from to) as (Hup & Hdown & Hlat).
    repeat split; try apply Hup; try apply Hdown.
    intros Heq. apply Hne, Hlat, Heq. }
  split; [exact Hdistinct |].
  split; [reflexivity |]. split; [reflexivity |].
  intros currentYear now c newStatus updated Hbuilt.
  apply handleStatusChange_built in Hbuilt as (Hne & _ & ->).
  eexists. split; [reflexivity |]. cbn [from to type].
  destruct (Hdistinct (currentStatus c) newStatus) as (Hup & Hdown & Hlat);
    [congruence |].
  repeat split; try apply Hup; try apply Hdown; auto.
Qed.

(** A wholesale case of a 2021 vehicle moved to top tier in 2024. *)
Lemma move_classification_witness :
  AnalysisView.determineMoveType WHOLESALE HCUV = Upgrade
  /\ exists entry,
       statusHistory
         {| id := "c-4"; timestamp := 5; mode := AUDIT;
            vehicle := sample_vehicle (JS.of_Z 2021) (JS.Num 30000);
            data := sample_data IP_HCUV "" None None;
            analysis := None; detectedTotal := None; currentStatus := HCUV;
            statusHistory := [mkEntry WHOLESALE HCUV 77 Upgrade] |}
         = [] ++ [entry]
       /\ type entry = Upgrade.
Proof.
  destruct move_classification as (Hrank & _ & _ & Hentry).
  split.
  - apply (Hrank WHOLESALE HCUV); [discriminate | vm_compute; lia].
  - destruct (Hentry 2024 77
        (sample_case "c-4" 5 (JS.of_Z 2021) (JS.Num 30000) WHOLESALE) HCUV
        _ eq_refl) as (entry & Hhist & _ & _ & _ & Hup & _).
    exists entry. split; [exact Hhist |].
    apply Hup. vm_compute. lia.
Defined.

(** ** Status changes *)

Lemma last_app_default {A} (l l' : list A) (d : A) :
  List.last (l ++ l') d = List.last l' (List.last l d).
Proof.
  destruct l' as [| x l'] using rev_ind.
  - rewrite app_nil_r. reflexivity.
  - rewrite app_assoc, !last_last. reflexivity.
Qed.

(** One request either leaves the view's case as it is and does not count,
    or counts and appends exactly one entry that ends in the new current
    status. *)
Lemma status_change_cases saveCase (s : App.Session) (r : App.StatusRequest) :
  (App.accepted saveCase s r = false
   /\ App.activeCase (App.status_change saveCase s r) = App.activeCase s)
  \/ (App.accepted saveCase s r = true
      /\ exists entry,
           statusHistory (App.activeCase (App.status_change saveCase s r))
             = statusHistory (App.activeCase s) ++ [entry]
           /\ to entry = currentStatus (App.activeCase (App.status_change saveCase s r))).
Proof.
  unfold App.accepted, App.status_change.
  destruct (AnalysisView.handleStatusChange (App.currentYear r) (App.now r)
              (Some (App.activeCase s)) (App.newStatus r)) as [| msg | updated] eqn:Hout.
  - left. split; [| reflexivity].
    revert Hout. unfold AnalysisView.handleStatusChange.
    case_decide as Hsame.
    + intros _. rewrite bool_decide_eq_true_2 by exact Hsame. reflexivity.
    + destruct (ok _); cbn [negb]; discriminate.
  - left. split; [| reflexivity].
    revert Hout. unfold AnalysisView.handleStatusChange.
    case_decide as Hsame; [discriminate |].
    destruct (ok _); cbn [negb]; [discriminate |].
    intros _. rewrite andb_false_r. reflexivity.
  - apply handleStatusChange_built in Hout as (Hne & Hok & Hupd).
    rewrite bool_decide_eq_false_2 by exact Hne. rewrite Hok. cbn [negb andb].
    destruct (saveCase updated (App.store s)) as [store' [err |]]; cbn [snd].
    + left. split; [| reflexivity]. apply bool_decide_eq_false_2. discriminate.
    + right. split; [apply bool_decide_eq_true_2; reflexivity |].
      cbn [App.activeCase]. subst updated. cbn [statusHistory currentStatus].
      eexists. split; reflexivity.
Qed.

(** A request for the current status, or for an ineligible status, changes
    neither the case nor the store: [saveCase] is not reached. *)
Lemma status_change_refused saveCase (s : App.Session) (r : App.StatusRequest) :
  App.newStatus r = currentStatus (App.activeCase s)
  \/ ok (AnalysisView.checkEligibility (App.currentYear r)
           (Some (App.activeCase s)) (App.newStatus r)) = false ->
  App.status_change saveCase s r = s /\ App.accepted saveCase s r = false.
Proof.
  intros Hrefused.
  unfold App.status_change, App.accepted, AnalysisView.handleStatusChange.
  case_decide as Hsame.
  - rewrite bool_decide_eq_true_2 by exact Hsame. split; reflexivity.
  - destruct Hrefused as [Heq | Hno]; [contradiction |].
    rewrite Hno. cbn [negb]. rewrite andb_false_r. split; reflexivity.
Qed.

(** C1.  Along any sequence of status-change requests the history of the
    case only grows at its end: the history afterwards is the history before
    followed by one new entry per accepted request and nothing else, the
    current status is the [to] of the last new entry (the status before, if
    no request was accepted), and so the agreement between the current
    status and the last history entry, or the initial status of a case with
    an empty history, is kept.  A request for the current status, or for an
    ineligible status, changes nothing and is not counted. *)
Theorem history_append_only saveCase (s : App.Session)
    (requests : list App.StatusRequest) :
  let s' := App.run saveCase s requests in
  (exists added,
     statusHistory (App.activeCase s') = statusHistory (App.activeCase s) ++ added
     /\ length added = App.accepted_count saveCase s requests
     /\ currentStatus (App.activeCase s')
          = List.last (to <$> added) (currentStatus (App.activeCase s)))
  /\ (forall initial,
        status_consistent initial (App.activeCase s) ->
        status_consistent initial (App.activeCase s'))
  /\ (forall r,
        App.newStatus r = currentStatus (App.activeCase s)
        \/ ok (AnalysisView.checkEligibility (App.currentYear r)
                 (Some (App.activeCase s)) (App.newStatus r)) = false ->
        App.status_change saveCase s r = s
        /\ App.accepted_count saveCase s [r] = 0%nat).
Proof.
  intros s'.
  assert (Hadded : exists added,
     statusHistory (App.activeCase s') = statusHistory (App.activeCase s) ++ added
     /\ length added = App.accepted_count saveCase s requests
     /\ currentStatus (App.activeCase s')
          = List.last (to <$> added) (currentStatus (App.activeCase s))).
  { subst s'. revert s.
    induction requests as [| r rest IH]; intros s.
    - exists []. cbn. rewrite app_nil_r. auto.
    - cbn [App.run foldl App.accepted_count].
      destruct (IH (App.status_change saveCase s r)) as (added & Hhist & Hlen & Hcur).
      fold (App.run saveCase (App.status_change saveCase s r) rest) in *.
      destruct (status_change_cases saveCase s r)
        as [(Hacc & Hsame) | (Hacc & entry & Hone & Hto)]; rewrite Hacc.
      + exists added. rewrite Hhist, Hcur, Hsame. auto.
      + exists (entry :: added). rewrite Hhist, Hone, Hcur, <- app_assoc.
        repeat split; [cbn; lia |].
        rewrite <- Hto.
        change (to <$> entry :: added) with ([to entry] ++ (to <$> added)).
        rewrite last_app_default. reflexivity. }
  split; [exact Hadded |]. split.
  - destruct Hadded as (added & Hhist & _ & Hcur).
    intros initial Hinit. unfold status_consistent in *.
    rewrite Hcur, Hhist, fmap_app, last_app_default, <- Hinit. reflexivity.
  - intros r Hrefused.
    destruct (status_change_refused saveCase s r Hrefused) as (Hsame & Hacc).
    split; [exact Hsame |]. cbn [App.accepted_count]. rewrite Hacc. reflexivity.
Qed.

Lemma history_append_only_witness :
  status_consistent CERTIFIED
    (App.activeCase (App.run StorageService.saveCase sample_session sample_requests))
  /\ length (statusHistory
       (App.activeCase (App.run StorageService.saveCase sample_session sample_requests)))
     = 2%nat.
Proof.
  destruct (history_append_only StorageService.saveCase sample_session
              sample_requests) as (_ & Hkeep & _).
  split; [apply Hkeep; reflexivity | vm_compute; reflexivity].
Defined.




(** ** Case creation *)






(** ** Persistence gateway *)

(** In cloud mode [saveAppraiser] is an [insert]: an id that is already in
    the table makes it throw, and the table is left as it was. *)
Lemma saveAppraiser_known_id (a : Appraiser) (st : StorageService.Store)
    (db : StorageService.Supabase) (name : string) :
  StorageService.supabase st = Some db ->
  StorageService.appraisers db !! app_id a = Some name ->
  StorageService.saveAppraiser a st
    = (st, Some (StorageService.UniqueViolation "appraisers" (app_id a))).
Proof.
  intros Hdb Hin. unfold StorageService.saveAppraiser. rewrite Hdb, Hin.
  reflexivity.
Qed.


(** C6 (the code at the failing input).  With three local appraisers of
    which two are already in the cloud table, the sync stops at the first
    appraiser: it reports failure with a count of zero and the cloud table
    still holds two appraisers, the third one missing. *)
Lemma sync_stops_at_known_appraiser :
  StorageService.syncLocalToCloud half_synced_store
    = (half_synced_store, {| StorageService.success := false;
                             StorageService.count := 0 |})
  /\ size (StorageService.appraisers half_synced_cloud) = 2%nat
  /\ StorageService.appraisers half_synced_cloud !! "a-3" = None.
Proof. repeat split; vm_compute; reflexivity. Qed.

(** Against an empty cloud table the same local data syncs in full. *)
Example first_sync_succeeds :
  snd (StorageService.syncLocalToCloud unsynced_store)
    = {| StorageService.success := true; StorageService.count := 3 |}
  /\ (size <$> (StorageService.appraisers
                 <$> StorageService.supabase
                       (fst (StorageService.syncLocalToCloud unsynced_store))))
     = Some 3%nat.
Proof. split; vm_compute; reflexivity. Qed.

#[local] Instance newer_or_same_total : Total StorageService.newer_or_same.
Proof. intros a b. unfold StorageService.newer_or_same. lia. Qed.

(** In cloud mode the listing is what the database sorted: newest first, and
    a rearrangement of the rows of the table. *)
Lemma cloud_listing_newest_first (st : StorageService.Store)
    (db : StorageService.Supabase) :
  StorageService.supabase st = Some db ->
  Sorted StorageService.newer_or_same (StorageService.getAllCases st)
  /\ StorageService.getAllCases st
       ≡ₚ (snd <$> map_to_list (StorageService.inspection_cases db)).
Proof.
  intros Hdb. unfold StorageService.getAllCases. rewrite Hdb.
  unfold StorageService.select_cases_newest_first.
  split; [apply Sorted_merge_sort, _ | apply merge_sort_Permutation].
Qed.

(** In local mode the listing is the stored array, and a case with a new id
    is put in front of it: the order stays newest first as long as each new
    case is at least as new as the cases already stored. *)
Lemma local_listing_front_insert (c : InspectionCase)
    (l : StorageService.LocalStorage) :
  StorageService.findIndex (fun x => bool_decide (id x = id c))
    (StorageService.auto_audit_cases l) = None ->
  StorageService.getAllCases (fst (StorageService.saveCase c (local_only l)))
    = c :: StorageService.getAllCases (local_only l).
Proof.
  intros Hnew. unfold StorageService.saveCase, StorageService.getAllCases.
  cbn. rewrite Hnew. reflexivity.
Qed.

Lemma local_listing_stays_newest_first (c : InspectionCase)
    (l : StorageService.LocalStorage) :
  StorageService.findIndex (fun x => bool_decide (id x = id c))
    (StorageService.auto_audit_cases l) = None ->
  Sorted StorageService.newer_or_same (StorageService.auto_audit_cases l) ->
  Forall (fun x => timestamp x <= timestamp c) (StorageService.auto_audit_cases l) ->
  Sorted StorageService.newer_or_same
    (StorageService.getAllCases (fst (StorageService.saveCase c (local_only l)))).
Proof.
  intros Hnew Hsorted Holder. rewrite (local_listing_front_insert c l Hnew).
  cbn. apply Sorted_cons; [exact Hsorted |].
  destruct Holder as [| x rest Hx _]; constructor. exact Hx.
Qed.

(** C7 (the code at the failing input).  In local mode, after a case
    stamped 200 and then a case stamped 100 have been saved, the listing
    puts the case stamped 100 first: it is not ordered newest first. *)
Lemma local_listing_out_of_order :
  StorageService.getAllCases out_of_order_store = [earlier_case; later_case]
  /\ timestamp earlier_case < timestamp later_case
  /\ ~ Sorted StorageService.newer_or_same
         (StorageService.getAllCases out_of_order_store).
Proof.
  split; [vm_compute; reflexivity |]. split; [reflexivity |].
  intros Hsorted.
  change (StorageService.getAllCases out_of_order_store)
    with [earlier_case; later_case] in Hsorted.
  apply Sorted_inv in Hsorted as [_ Hhd].
  apply HdRel_inv in Hhd. vm_compute in Hhd. apply Hhd. reflexivity.
Qed.

(** ** Technician profiles *)





(** *** The insertion-ordered map *)




Lemma techMap_set_keys (k : string) (v : StorageService.TechStats)
    (m : StorageService.TechMap) :
  (StorageService.techMap_set k v m).*1
    = if decide (k ∈ m.*1) then m.*1 else m.*1 ++ [k].
Proof.
  induction m as [| [k' w] m IH]; cbn.
  - rewrite decide_False by apply not_elem_of_nil. reflexivity.
  - destruct (decide (k' = k)) as [-> | Hne]; cbn.
    + rewrite decide_True by apply list_elem_of_here. reflexivity.
    + rewrite IH. destruct (decide (k ∈ m.*1)) as [Hin | Hout].
      * rewrite decide_True by (apply list_elem_of_further, Hin). reflexivity.
      * rewrite decide_False; [reflexivity |].
        rewrite not_elem_of_cons. split; [congruence | exact Hout].
Qed.



(** *** The grouping pass *)




Lemma profile_names (m : StorageService.TechMap) :
  perf_technicianName <$> (StorageService.profile_of <$> m) = m.*1.
Proof.
  rewrite <- list_fmap_compose. apply list_fmap_ext.
  intros i [k s] _. reflexivity.
Qed.



(* ===================================================================== *)
(** * Further properties of the persistence gateway *)
(* ===================================================================== *)

(** ** Arrays searched by a key *)

Section ByKey.

Context {A K : Type} `{EqDecision K} (key : A -> K).


Lemma findIndex_None (x : A) (l : list A) :
  StorageService.findIndex (fun y => bool_decide (key y = key x)) l = None
  <-> key x ∉ key <$> l.
Proof.
  unfold StorageService.findIndex. split.
  - intros Hfind.
    destruct (list_find _ l) as [[i' y] |] eqn:Hlf; [discriminate |].
    apply list_find_None in Hlf. intros Hin.
    apply list_elem_of_fmap in Hin as (y & Hk & Hy).
    rewrite Forall_forall in Hlf. apply (Hlf y Hy).
    apply bool_decide_eq_true. congruence.
  - intros Hout.
    destruct (list_find _ l) as [[i' y] |] eqn:Hlf; [| reflexivity].
    apply list_find_Some in Hlf as (Hy & Hp & _). exfalso. apply Hout.
    apply bool_decide_eq_true in Hp. rewrite <- Hp.
    apply list_elem_of_fmap_2. eapply list_elem_of_lookup_2, Hy.
Qed.




End ByKey.

(** ** The listing of a store *)

Lemma cloud_listed (st : StorageService.Store) (db : StorageService.Supabase)
    (x : InspectionCase) :
  StorageService.supabase st = Some db ->
  x ∈ StorageService.getAllCases st
  <-> exists k, StorageService.inspection_cases db !! k = Some x.
Proof.
  intros Hdb. unfold StorageService.getAllCases. rewrite Hdb.
  unfold StorageService.select_cases_newest_first.
  rewrite merge_sort_Permutation, list_elem_of_fmap. split.
  - intros ([k v] & -> & Hin). exists k. apply elem_of_map_to_list, Hin.
  - intros (k & Hk). exists (k, x). split; [reflexivity |].
    apply elem_of_map_to_list, Hk.
Qed.


(** In a well-keyed cloud table an identifier is listed exactly when it is a
    key of the table. *)
Lemma cloud_listed_id (st : StorageService.Store)
    (db : StorageService.Supabase) (k : string) :
  StorageService.supabase st = Some db -> well_keyed st ->
  k ∈ listed_ids st <-> is_Some (StorageService.inspection_cases db !! k).
Proof.
  intros Hdb Hwf. unfold well_keyed in Hwf. rewrite Hdb in Hwf.
  unfold listed_ids. rewrite list_elem_of_fmap. split.
  - intros (x & -> & Hx). apply (cloud_listed st db x Hdb) in Hx as (k & Hk).
    rewrite <- (Hwf k x Hk) in Hk. eauto.
  - intros (x & Hx). exists x. split; [symmetry; apply (Hwf k x Hx) |].
    apply (cloud_listed st db x Hdb). eauto.
Qed.

(** ** saveCase *)



Lemma out_of_order_store_well_keyed : well_keyed out_of_order_store.
Proof.
  unfold well_keyed. cbn. apply (bool_decide_unpack _). vm_compute. exact I.
Qed.






(** ** deleteCase *)

Lemma filter_all {A} (P : A -> Prop) `{forall x, Decision (P x)} (l : list A) :
  Forall P l -> filter P l = l.
Proof.
  induction 1 as [| x l Hx _ IH]; [reflexivity |].
  rewrite filter_cons, decide_True by exact Hx. rewrite IH. reflexivity.
Qed.




(** X4.  Saving a case whose [id] is not listed and then deleting that [id]
    gives back the store one started from, in both stores. *)
Theorem save_then_delete_restores (c : InspectionCase)
    (st : StorageService.Store) :
  well_keyed st -> id c ∉ listed_ids st ->
  fst (StorageService.deleteCase (id c) (fst (StorageService.saveCase c st))) = st.
Proof.
  intros Hwf Hnew. destruct st as [l [db |]].
  - assert (Hfree : StorageService.inspection_cases db !! id c = None).
    { destruct (StorageService.inspection_cases db !! id c) as [v |] eqn:Hv;
        [| reflexivity].
      exfalso. apply Hnew.
      apply (cloud_listed_id
               {| StorageService.localStorage := l;
                  StorageService.supabase := Some db |} db (id c) eq_refl Hwf).
      eauto. }
    unfold StorageService.deleteCase, StorageService.saveCase. cbn.
    rewrite (delete_insert_id _ _ _ Hfree). destruct db; reflexivity.
  - unfold listed_ids in Hnew. cbn in Hnew.
    unfold StorageService.deleteCase, StorageService.saveCase.
    cbn [StorageService.supabase StorageService.localStorage fst
         StorageService.set_local StorageService.auto_audit_cases
         StorageService.ls_appraisers StorageService.ls_technicians
         StorageService.ls_standards StorageService.dealership_brand].
    rewrite (proj2 (findIndex_None id c _) Hnew).
    rewrite filter_cons, decide_False by (intros Hne; apply Hne; reflexivity).
    rewrite filter_all; [destruct l; reflexivity |].
    apply Forall_forall. intros x Hx Hk. apply Hnew. rewrite <- Hk.
    apply list_elem_of_fmap_2, Hx.
Qed.

Lemma save_then_delete_restores_witness :
  fst (StorageService.deleteCase "c-10"
         (fst (StorageService.saveCase
                 (sample_case "c-10" 300 (JS.of_Z 2020) (JS.Num 1000) HAPO)
                 out_of_order_store)))
    = out_of_order_store.
Proof.
  apply (save_then_delete_restores
           (sample_case "c-10" 300 (JS.of_Z 2020) (JS.Num 1000) HAPO)
           out_of_order_store out_of_order_store_well_keyed).
  apply (bool_decide_unpack _). vm_compute. exact I.
Defined.

(** ** Status changes against the real store *)




(** ** saveStandard *)



(** ** Brand, appraisers and technicians *)





(* ===================================================================== *)
(** * Further properties of the sync *)
(* ===================================================================== *)

Lemma saveBrand_cloud_writer : cloud_writer StorageService.saveBrand UpBrand.
Proof. intros x l db. left. reflexivity. Qed.

Lemma saveStandard_cloud_writer :
  cloud_writer StorageService.saveStandard UpStandard.
Proof. intros x l db. left. reflexivity. Qed.

Lemma saveCase_cloud_writer : cloud_writer StorageService.saveCase UpCase.
Proof. intros x l db. left. reflexivity. Qed.

Lemma saveAppraiser_cloud_writer :
  cloud_writer StorageService.saveAppraiser UpAppraiser.
Proof.
  intros x l db. unfold StorageService.saveAppraiser. cbn.
  destruct (StorageService.appraisers db !! app_id x); [right | left]; eauto.
Qed.

Lemma saveTechnician_cloud_writer :
  cloud_writer StorageService.saveTechnician UpTechnician.
Proof.
  intros x l db. unfold StorageService.saveTechnician. cbn.
  destruct (StorageService.technicians db !! tech_id x); [right | left]; eauto.
Qed.

(** A replay loop writes a prefix of its records. *)
Lemma replay_reaches {A} (save : A -> StorageService.Store -> StorageService.WriteResult)
    (up : A -> Upload) (items : list A) (l : StorageService.LocalStorage)
    (db : StorageService.Supabase) (n : nat) :
  cloud_writer save up ->
  reaches l db n (up <$> items)
    (StorageService.replay save items (cloud_store l db) n).
Proof.
  intros Hsave. revert db n.
  induction items as [| x items IH]; intros db n.
  - exists 0%nat. cbn. repeat split; auto with lia.
  - cbn [StorageService.replay].
    destruct (Hsave x l db) as [-> | (e & ->)].
    + destruct (IH (apply_upload db (up x)) (S n)) as (k & Hk & Hst & Hn & Hres).
      exists (S k). cbn [fmap list_fmap length take foldl].
      split; [lia |]. split; [exact Hst |]. split; [lia |].
      rewrite Hres. rewrite length_fmap in *. lia.
    + exists 0%nat. cbn. split; [lia |]. split; [reflexivity |].
      split; [lia |]. split; [discriminate | lia].
Qed.

(** Two stretches in sequence write a prefix of their records put together. *)
Lemma and_then_reaches (l : StorageService.LocalStorage)
    (db : StorageService.Supabase) (n : nat) (ups1 ups2 : list Upload)
    (r : StorageService.Store * nat * option StorageService.PostgrestError)
    (k : StorageService.Store -> nat ->
         StorageService.Store * nat * option StorageService.PostgrestError) :
  reaches l db n ups1 r ->
  (forall db' n', reaches l db' n' ups2 (k (cloud_store l db') n')) ->
  reaches l db n (ups1 ++ ups2) (StorageService.and_then r k).
Proof.
  intros (k1 & Hk1 & Hst & Hn & Hres) Hnext.
  destruct r as [[st count] [e |]]; cbn in *.
  - exists k1. rewrite length_app.
    assert (k1 <> length ups1) by (intros Heq; apply Hres in Heq; discriminate).
    split; [lia |]. rewrite take_app_le by lia.
    split; [exact Hst |]. split; [exact Hn |].
    split; [discriminate | lia].
  - assert (Hall : k1 = length ups1) by (apply Hres; reflexivity).
    subst st count k1. rewrite firstn_all.
    destruct (Hnext (foldl apply_upload db ups1) (n + length ups1)%nat)
      as (k2 & Hk2 & Hst2 & Hn2 & Hres2).
    exists (length ups1 + k2)%nat. rewrite length_app.
    split; [lia |]. rewrite take_app_add, foldl_app.
    split; [exact Hst2 |]. split; [lia |].
    rewrite Hres2. lia.
Qed.

(** In cloud mode the sync writes, in order, a prefix of the records of the
    browser store; it reports the length of that prefix, and success exactly
    when the prefix is everything. *)
Lemma sync_reaches (l : StorageService.LocalStorage)
    (db : StorageService.Supabase) :
  exists k,
    (k <= length (uploads_of l))%nat
    /\ fst (StorageService.syncLocalToCloud (cloud_store l db))
       = cloud_store l (foldl apply_upload db (take k (uploads_of l)))
    /\ StorageService.count (snd (StorageService.syncLocalToCloud (cloud_store l db))) = k
    /\ (StorageService.success (snd (StorageService.syncLocalToCloud (cloud_store l db)))
          = true <-> k = length (uploads_of l)).
Proof.
  unfold StorageService.syncLocalToCloud.
  cbn [StorageService.supabase StorageService.localStorage cloud_store].
  match goal with
  | |- context [StorageService.and_then ?a ?b] =>
      set (r := StorageService.and_then a b)
  end.
  assert (Hr : reaches l db 0 (uploads_of l) r);
    [subst r
    | destruct Hr as (k & Hk & Hst & Hn & Hres);
      destruct r as [[st' count] [e |]] ].
  - unfold uploads_of.
    apply and_then_reaches.
    { unfold brand_upload.
      destruct (StorageService.dealership_brand l) as [b |].
      - destruct (decide (b = "")).
        + exists 0%nat. cbn. repeat split; auto with lia.
        + apply (replay_reaches StorageService.saveBrand UpBrand [b] l db 0),
            saveBrand_cloud_writer.
      - exists 0%nat. cbn. repeat split; auto with lia. }
    intros db1 n1. apply and_then_reaches;
      [apply replay_reaches, saveAppraiser_cloud_writer |].
    intros db2 n2. apply and_then_reaches;
      [apply replay_reaches, saveTechnician_cloud_writer |].
    intros db3 n3. apply and_then_reaches;
      [apply replay_reaches, saveStandard_cloud_writer |].
    intros db4 n4. apply replay_reaches, saveCase_cloud_writer.
  - cbn in *. exists k. split; [exact Hk |]. split; [exact Hst |].
    split; [exact Hn |]. split; [discriminate |].
    intros Hall. apply Hres in Hall. discriminate.
  - cbn in *. exists k. split; [exact Hk |]. split; [exact Hst |].
    split; [exact Hn |]. split; [intros _; apply Hres; reflexivity | reflexivity].
Qed.

(** ** Tables under a sequence of writes *)

Lemma put_all_dom {V} (rows : list (string * V)) (m : gmap string V) :
  dom m ⊆ dom (put_all m rows).
Proof.
  revert m. induction rows as [| [k v] rows IH]; intros m; [reflexivity |].
  cbn. etransitivity; [apply (dom_insert_subseteq m k v) | apply IH].
Qed.



Section TableView.

Context {V : Type} (table : StorageService.Supabase -> gmap string V)
  (entry : Upload -> option (string * V)).

Hypothesis table_apply : forall db u,
  table (apply_upload db u)
  = match entry u with
    | Some kv => <[kv.1 := kv.2]> (table db)
    | None => table db
    end.

Lemma table_foldl (ups : list Upload) (db : StorageService.Supabase) :
  table (foldl apply_upload db ups) = put_all (table db) (omap entry ups).
Proof.
  revert db. induction ups as [| u ups IH]; intros db; [reflexivity |].
  cbn [foldl]. rewrite IH, table_apply. cbn [omap list_omap].
  destruct (entry u) as [kv |]; reflexivity.
Qed.

Lemma table_grows (ups : list Upload) (db : StorageService.Supabase) :
  dom (table db) ⊆ dom (table (foldl apply_upload db ups)).
Proof. rewrite table_foldl. apply put_all_dom. Qed.

End TableView.

Lemma settings_apply db u :
  StorageService.settings (apply_upload db u)
  = match setting_entry u with
    | Some kv => <[kv.1 := kv.2]> (StorageService.settings db)
    | None => StorageService.settings db
    end.
Proof. destruct u; reflexivity. Qed.

Lemma appraisers_apply db u :
  StorageService.appraisers (apply_upload db u)
  = match appraiser_entry u with
    | Some kv => <[kv.1 := kv.2]> (StorageService.appraisers db)
    | None => StorageService.appraisers db
    end.
Proof. destruct u; reflexivity. Qed.

Lemma technicians_apply db u :
  StorageService.technicians (apply_upload db u)
  = match technician_entry u with
    | Some kv => <[kv.1 := kv.2]> (StorageService.technicians db)
    | None => StorageService.technicians db
    end.
Proof. destruct u; reflexivity. Qed.

Lemma standards_apply db u :
  StorageService.standards (apply_upload db u)
  = match standard_entry u with
    | Some kv => <[kv.1 := kv.2]> (StorageService.standards db)
    | None => StorageService.standards db
    end.
Proof. destruct u; reflexivity. Qed.

Lemma cases_apply db u :
  StorageService.inspection_cases (apply_upload db u)
  = match case_entry u with
    | Some kv => <[kv.1 := kv.2]> (StorageService.inspection_cases db)
    | None => StorageService.inspection_cases db
    end.
Proof. destruct u; reflexivity. Qed.

Lemma foldl_keeps_rows (ups : list Upload) (db : StorageService.Supabase) :
  keeps_rows db (foldl apply_upload db ups).
Proof.
  unfold keeps_rows.
  split; [apply (table_grows _ _ settings_apply) |].
  split; [apply (table_grows _ _ appraisers_apply) |].
  split; [apply (table_grows _ _ technicians_apply) |].
  split; [apply (table_grows _ _ standards_apply) |].
  apply (table_grows _ _ cases_apply).
Qed.

(** ** The sync as a whole *)

(** X9.  [syncLocalToCloud] never changes the browser store.  Without
    Supabase it does nothing and reports failure with a count of 0.  With
    Supabase it writes the records of the browser store in the order brand,
    appraisers, technicians, standards, cases, and stops at the first write
    that throws: the cloud tables afterwards are the tables before with a
    prefix of the records written, the count is the length of that prefix,
    and success is reported exactly when every record was written. *)
Theorem sync_writes_a_prefix (st : StorageService.Store) :
  let ups := uploads_of (StorageService.localStorage st) in
  let out := StorageService.syncLocalToCloud st in
  StorageService.localStorage (fst out) = StorageService.localStorage st
  /\ (StorageService.supabase st = None ->
      out = (st, {| StorageService.success := false; StorageService.count := 0 |}))
  /\ (forall db, StorageService.supabase st = Some db ->
      exists k,
        (k <= length ups)%nat
        /\ StorageService.supabase (fst out)
           = Some (foldl apply_upload db (take k ups))
        /\ StorageService.count (snd out) = k
        /\ (StorageService.success (snd out) = true <-> k = length ups)).
Proof.
  intros ups out. subst ups out. destruct st as [l [db |]].
  - destruct (sync_reaches l db) as (k & Hk & Hst & Hn & Hres).
    change {| StorageService.localStorage := l;
              StorageService.supabase := Some db |} with (cloud_store l db).
    split; [rewrite Hst; reflexivity |]. split; [discriminate |].
    intros db' [= <-]. exists k. rewrite Hst. auto.
  - split; [reflexivity |]. split; [reflexivity | discriminate].
Qed.

Lemma sync_writes_a_prefix_witness :
  exists k,
    (k <= 3)%nat
    /\ StorageService.supabase (fst (StorageService.syncLocalToCloud half_synced_store))
       = Some (foldl apply_upload half_synced_cloud
                 (take k [UpAppraiser ann; UpAppraiser bob; UpAppraiser cyd]))
    /\ StorageService.count (snd (StorageService.syncLocalToCloud half_synced_store)) = k.
Proof.
  destruct (sync_writes_a_prefix half_synced_store) as (_ & _ & Hcloud).
  destruct (Hcloud half_synced_cloud eq_refl) as (k & Hk & Hst & Hn & _).
  exists k. split; [exact Hk |]. split; [exact Hst | exact Hn].
Defined.

(** X10.  The sync never deletes a cloud row: whatever it writes and
    wherever it stops, every key of the five cloud tables is still a key
    afterwards. *)
Theorem sync_never_deletes (st : StorageService.Store)
    (db : StorageService.Supabase) :
  StorageService.supabase st = Some db ->
  exists db',
    StorageService.supabase (fst (StorageService.syncLocalToCloud st)) = Some db'
    /\ keeps_rows db db'.
Proof.
  intros Hdb. destruct st as [l sb]. cbn in Hdb. subst sb.
  destruct (sync_reaches l db) as (k & _ & Hst & _).
  change {| StorageService.localStorage := l;
            StorageService.supabase := Some db |} with (cloud_store l db).
  rewrite Hst. eexists. split; [reflexivity |]. apply foldl_keeps_rows.
Qed.

Lemma sync_never_deletes_witness :
  exists db',
    StorageService.supabase (fst (StorageService.syncLocalToCloud half_synced_store))
      = Some db'
    /\ keeps_rows half_synced_cloud db'.
Proof. apply (sync_never_deletes half_synced_store half_synced_cloud). reflexivity. Defined.

(** ** When the sync succeeds *)

Section TableFrame.

Context {V : Type} (table : StorageService.Supabase -> gmap string V)
  (entry : Upload -> option (string * V)).

Hypothesis table_apply : forall db u,
  table (apply_upload db u)
  = match entry u with
    | Some kv => <[kv.1 := kv.2]> (table db)
    | None => table db
    end.


End TableFrame.



Section InsertReplay.

Context {A V : Type}
  (save : A -> StorageService.Store -> StorageService.WriteResult)
  (up : A -> Upload) (key : A -> string) (val : A -> V)
  (table : StorageService.Supabase -> gmap string V).

Hypothesis save_known : forall x l db,
  is_Some (table db !! key x) ->
  exists e, save x (cloud_store l db) = (cloud_store l db, Some e).

Hypothesis save_fresh : forall x l db,
  table db !! key x = None ->
  save x (cloud_store l db) = (cloud_store l (apply_upload db (up x)), None).

Hypothesis table_up : forall x db,
  table (apply_upload db (up x)) = <[key x := val x]> (table db).


End InsertReplay.










(** ** What a successful sync leaves in the cloud *)










(* ===================================================================== *)
(** * Further properties of eligibility and the status lifecycle *)
(* ===================================================================== *)

(** X13.  The two eligibility checks give the same verdict: a program passes
    the check of the intake form exactly when, for the same vehicle and
    year, the status of that name passes the check of the analysis view.
    Only the wording of the age reason differs. *)
Theorem checks_agree (currentYear : Z) (c : InspectionCase)
    (prog : InventoryProgram) :
  let view :=
    AnalysisView.checkEligibility currentYear (Some c) (program_as_status prog) in
  let form := InspectionForm.checkEligibility currentYear (vehicle c) prog in
  ok form = ok view
  /\ (reason form = reason view
      \/ exists text, reason view = Some text /\ reason form = Some (text +:+ "s")).
Proof.
  unfold AnalysisView.checkEligibility, InspectionForm.checkEligibility.
  destruct prog; cbn [program_as_status];
    repeat (match goal with
            | |- context [if ?b then _ else _] => destruct b
            end);
    cbn; (split; [reflexivity |]); try (left; reflexivity);
    right; eexists; split; reflexivity.
Qed.

(** X14.  The automatic adjustment of the selected program settles: its
    outcome is always an eligible program, running it again on its outcome
    changes nothing, and it never moves a selection up the order top tier,
    mid tier, generic certified (a selection that was downgraded stays
    downgraded when the vehicle data make the higher program eligible
    again). *)
Theorem auto_adjust_settles (currentYear : Z) (v : Vehicle)
    (selected : InventoryProgram) :
  let adjusted := InspectionForm.autoAdjustProgram currentYear v selected in
  ok (InspectionForm.checkEligibility currentYear v adjusted) = true
  /\ InspectionForm.autoAdjustProgram currentYear v adjusted = adjusted
  /\ (priority selected <= priority adjusted)%nat.
Proof.
  unfold InspectionForm.autoAdjustProgram.
  destruct selected; cbn [bool_decide decide_rel andb];
    rewrite ?bool_decide_eq_true_2, ?bool_decide_eq_false_2 by congruence;
    cbn [andb];
    destruct (ok (InspectionForm.checkEligibility currentYear v IP_HCUV)) eqn:Hc,
             (ok (InspectionForm.checkEligibility currentYear v IP_HAPO)) eqn:Ha;
    cbn [negb priority];
    rewrite ?bool_decide_eq_true_2, ?bool_decide_eq_false_2 by congruence;
    cbn [andb negb]; rewrite ?Hc, ?Ha; cbn [negb];
    repeat split; cbn [priority]; auto with lia.
Qed.

(** X15.  A case created from the intake form right after the automatic
    adjustment of the program starts in a status that is eligible for its
    vehicle in that year, with an empty history; asking for that same status
    again is ignored. *)
Theorem intake_case_starts_eligible (currentYear now later : Z) (uuid : string)
    (v : Vehicle) (d : InspectionData) (m : AnalysisMode)
    (result : GeminiService.AnalysisResult) :
  let adjusted := InspectionForm.autoAdjustProgram currentYear v (program d) in
  let c := App.newCase uuid now v (set_program d adjusted) m result in
  currentStatus c = program_as_status adjusted
  /\ statusHistory c = []
  /\ ok (AnalysisView.checkEligibility currentYear (Some c) (currentStatus c)) = true
  /\ AnalysisView.handleStatusChange currentYear later (Some c) (currentStatus c)
     = AnalysisView.Ignored.
Proof.
  cbn zeta. split; [reflexivity |]. split; [reflexivity |]. split.
  - unfold App.newCase, set_program, InspectionForm.autoAdjustProgram,
      AnalysisView.checkEligibility, InspectionForm.checkEligibility.
    cbn [currentStatus vehicle program].
    destruct (program d); cbn [bool_decide decide_rel andb];
      rewrite ?bool_decide_eq_true_2, ?bool_decide_eq_false_2 by congruence;
      cbn [andb];
      destruct (JS.gt (JS.sub (JS.of_Z currentYear) (year v)) (JS.of_Z 6));
      destruct (JS.gt (JS.sub (JS.of_Z currentYear) (year v)) (JS.of_Z 10));
      destruct (JS.gt (kilometres v) (JS.of_Z 120000));
      destruct (JS.gt (kilometres v) (JS.of_Z 200000));
      reflexivity.
  - unfold AnalysisView.handleStatusChange.
    rewrite decide_True by reflexivity. reflexivity.
Qed.

(** What a single request does to the record of the case. *)
Lemma status_change_record saveCase (s : App.Session) (r : App.StatusRequest) :
  App.activeCase (App.status_change saveCase s r) = App.activeCase s
  \/ (App.newStatus r <> currentStatus (App.activeCase s)
      /\ App.activeCase (App.status_change saveCase s r)
         = {| id := id (App.activeCase s);
              timestamp := timestamp (App.activeCase s);
              mode := mode (App.activeCase s);
              vehicle := vehicle (App.activeCase s);
              data := data (App.activeCase s);
              analysis := analysis (App.activeCase s);
              detectedTotal := detectedTotal (App.activeCase s);
              currentStatus := App.newStatus r;
              statusHistory :=
                statusHistory (App.activeCase s) ++
                [{| from := currentStatus (App.activeCase s);
                    to := App.newStatus r;
                    entry_timestamp := App.now r;
                    type := AnalysisView.determineMoveType
                              (currentStatus (App.activeCase s)) (App.newStatus r) |}] |}).
Proof.
  unfold App.status_change.
  destruct (AnalysisView.handleStatusChange _ _ _ _) as [| msg | updated] eqn:Hout;
    [left; reflexivity | left; reflexivity |].
  apply handleStatusChange_built in Hout as (Hne & _ & ->).
  destruct (saveCase _ (App.store s)) as [store' [err |]];
    [left; reflexivity | right; split; [exact Hne | reflexivity]].
Qed.

(** X16.  Status changes touch nothing but the status and the history: after
    any sequence of requests, whatever the persistence layer does, the case
    has the [id], timestamp, mode, vehicle, inspection data, analysis text
    and detected total it started with. *)
Theorem status_changes_keep_the_record saveCase (s : App.Session)
    (requests : list App.StatusRequest) :
  let c := App.activeCase s in
  let c' := App.activeCase (App.run saveCase s requests) in
  id c' = id c /\ timestamp c' = timestamp c /\ mode c' = mode c
  /\ vehicle c' = vehicle c /\ data c' = data c
  /\ analysis c' = analysis c /\ detectedTotal c' = detectedTotal c.
Proof.
  cbn zeta. revert s. induction requests as [| r rest IH]; intros s.
  - cbn. repeat split.
  - cbn [App.run foldl].
    fold (App.run saveCase (App.status_change saveCase s r) rest).
    destruct (IH (App.status_change saveCase s r))
      as (H1 & H2 & H3 & H4 & H5 & H6 & H7).
    rewrite H1, H2, H3, H4, H5, H6, H7.
    destruct (status_change_record saveCase s r) as [-> | [_ ->]];
      repeat split.
Qed.

Lemma chained_snoc (start : PostReviewStatus)
    (history : list StatusHistoryEntry) (e : StatusHistoryEntry) :
  chained start history ->
  from e = List.last (to <$> history) start ->
  to e <> from e ->
  type e = AnalysisView.determineMoveType (from e) (to e) ->
  chained start (history ++ [e]).
Proof.
  revert start. induction history as [| x history IH]; intros start Hch Hfrom Hne Hty.
  - cbn in *. auto.
  - cbn [chained app] in *. destruct Hch as (Hx & Hxne & Hxty & Hrest).
    split; [exact Hx |]. split; [exact Hxne |]. split; [exact Hxty |].
    apply IH; try assumption.
    rewrite Hfrom.
    change (to <$> x :: history) with ([to x] ++ (to <$> history)).
    rewrite last_app_default. reflexivity.
Qed.

Lemma chained_no_lateral (start : PostReviewStatus)
    (history : list StatusHistoryEntry) :
  chained start history -> Forall (fun e => type e <> Lateral) history.
Proof.
  revert start. induction history as [| e history IH]; intros start Hch;
    [constructor |].
  cbn in Hch. destruct Hch as (_ & Hne & Hty & Hrest).
  constructor; [| apply (IH (to e) Hrest)].
  rewrite Hty. intros Hlat.
  apply (determineMoveType_ranks (from e) (to e)) in Hlat. congruence.
Qed.

(** X17.  The status history is one walk.  If the history of a case reads
    as a walk from some status to the case's current status (as it does for
    a new case, whose history is empty), then after any sequence of requests
    it still does: every entry starts where the previous one ended, no entry
    stays in place, every entry carries the classification of its own move
    (so none is [Lateral]), and the last entry ends in the current status. *)
Theorem history_is_a_walk saveCase (s : App.Session)
    (requests : list App.StatusRequest) (start : PostReviewStatus) :
  chained start (statusHistory (App.activeCase s)) ->
  status_consistent start (App.activeCase s) ->
  let c' := App.activeCase (App.run saveCase s requests) in
  chained start (statusHistory c')
  /\ status_consistent start c'
  /\ Forall (fun e => type e <> Lateral) (statusHistory c').
Proof.
  cbn zeta. intros Hch Hcons.
  assert (Hwalk : chained start
            (statusHistory (App.activeCase (App.run saveCase s requests)))
          /\ status_consistent start
               (App.activeCase (App.run saveCase s requests))).
  { revert s Hch Hcons. induction requests as [| r rest IH]; intros s Hch Hcons.
    - cbn. auto.
    - cbn [App.run foldl].
      fold (App.run saveCase (App.status_change saveCase s r) rest).
      apply IH;
        destruct (status_change_record saveCase s r) as [-> | [Hne ->]];
        try assumption.
      + cbn [statusHistory]. apply chained_snoc; cbn [from to type];
          [exact Hch | exact Hcons | exact Hne | reflexivity].
      + unfold status_consistent. cbn [statusHistory currentStatus].
        rewrite fmap_app, last_app_default. reflexivity. }
  destruct Hwalk as [Hwalk Hcons']. split; [exact Hwalk |].
  split; [exact Hcons' |]. apply (chained_no_lateral start), Hwalk.
Qed.

(** The sample session: two entries, certified to wholesale to mid tier. *)
Lemma history_is_a_walk_witness :
  chained CERTIFIED
    (statusHistory
       (App.activeCase (App.run StorageService.saveCase sample_session sample_requests)))
  /\ (to <$> statusHistory
        (App.activeCase (App.run StorageService.saveCase sample_session sample_requests)))
     = [WHOLESALE; HAPO].
Proof.
  destruct (history_is_a_walk StorageService.saveCase sample_session
              sample_requests CERTIFIED) as (Hwalk & _ & _).
  - exact I.
  - reflexivity.
  - split; [exact Hwalk | vm_compute; reflexivity].
Defined.

(* ===================================================================== *)
(** * Further properties of the aggregates *)
(* ===================================================================== *)





(** ** More on the technician profiles *)

Lemma accumulate_keys (m : StorageService.TechMap) (c : InspectionCase) :
  (StorageService.accumulate m c).*1
  = if decide (technicianName (data c) = "") then m.*1
    else if decide (technicianName (data c) ∈ m.*1) then m.*1
    else m.*1 ++ [technicianName (data c)].
Proof.
  unfold StorageService.accumulate.
  destruct (decide (technicianName (data c) = "")); [reflexivity |].
  apply techMap_set_keys.
Qed.

Lemma technician_names_snoc (cases : list InspectionCase) (c : InspectionCase) :
  technician_names (cases ++ [c])
  = technician_names cases
    ++ (if decide (technicianName (data c) = "") then []
        else [technicianName (data c)]).
Proof.
  unfold technician_names. rewrite fmap_app, filter_app. f_equal.
  change ((fun c0 => technicianName (data c0)) <$> [c])
    with [technicianName (data c)].
  rewrite filter_cons, filter_nil.
  destruct (decide (technicianName (data c) = "")) as [-> | Hne].
  - rewrite decide_False by (intros H; apply H; reflexivity). reflexivity.
  - rewrite decide_True by exact Hne. reflexivity.
Qed.

(** X19.  The technician profiles come in the order in which the
    technicians are first met in the case collection: the names of the
    profiles are the non-empty technician names of the cases, each at its
    first occurrence. *)
Theorem profiles_in_order_of_first_case (cases : list InspectionCase) :
  perf_technicianName <$> StorageService.profiles_of_cases cases
  = first_seen (technician_names cases).
Proof.
  unfold StorageService.profiles_of_cases. rewrite profile_names.
  induction cases as [| c cases IH] using rev_ind; [reflexivity |].
  rewrite foldl_app, technician_names_snoc. cbn [foldl].
  rewrite accumulate_keys, IH. unfold first_seen. rewrite foldl_app.
  destruct (decide (technicianName (data c) = "")); reflexivity.
Qed.





(* ===================================================================== *)
(** * Properties of the dashboard *)
(* ===================================================================== *)

(** ** The leaderboard *)

Lemma insert_by_accuracy_perm (p : PerformanceStats)
    (sorted : list PerformanceStats) :
  Dashboard.insert_by_accuracy p sorted ≡ₚ p :: sorted.
Proof.
  induction sorted as [| q rest IH]; cbn; [reflexivity |].
  destruct (Qle_bool (accuracyRating q) (accuracyRating p)); [reflexivity |].
  rewrite IH. apply Permutation_swap.
Qed.

Lemma sort_by_accuracy_perm (profiles : list PerformanceStats) :
  Dashboard.sort_by_accuracy profiles ≡ₚ profiles.
Proof.
  induction profiles as [| p profiles IH]; cbn; [reflexivity |].
  rewrite insert_by_accuracy_perm, IH. reflexivity.
Qed.

Lemma insert_by_accuracy_sorted (p : PerformanceStats)
    (sorted : list PerformanceStats) :
  StronglySorted rated_no_lower sorted ->
  StronglySorted rated_no_lower (Dashboard.insert_by_accuracy p sorted).
Proof.
  induction 1 as [| q rest Hrest IH Hq]; cbn.
  - repeat constructor.
  - destruct (Qle_bool (accuracyRating q) (accuracyRating p)) eqn:Hle.
    + apply Qle_bool_iff in Hle.
      constructor; [constructor; assumption |].
      constructor; [exact Hle |].
      eapply Forall_impl; [exact Hq |]. unfold rated_no_lower.
      intros x Hx. lra.
    + assert (Hlt : (accuracyRating p < accuracyRating q)%Q).
      { apply Qnot_le_lt. intros H. apply Qle_bool_iff in H. congruence. }
      constructor; [exact IH |].
      rewrite insert_by_accuracy_perm. constructor; [| exact Hq].
      unfold rated_no_lower. lra.
Qed.

Lemma sort_by_accuracy_sorted (profiles : list PerformanceStats) :
  StronglySorted rated_no_lower (Dashboard.sort_by_accuracy profiles).
Proof.
  induction profiles as [| p profiles IH]; cbn; [constructor |].
  apply insert_by_accuracy_sorted, IH.
Qed.

(** X21.  The leaderboard shows the five best-rated technicians: it holds
    five profiles (all of them when there are fewer), each one of the given
    profiles, in descending order of accuracy, and no profile left out is
    rated higher than a profile shown. *)
Theorem leaderboard_top_five (profiles : list PerformanceStats) :
  let shown := Dashboard.leaderboard profiles in
  length shown = Nat.min 5 (length profiles)
  /\ (forall p, p ∈ shown -> p ∈ profiles)
  /\ StronglySorted rated_no_lower shown
  /\ (forall p q, p ∈ shown -> q ∈ profiles -> q ∉ shown -> rated_no_lower p q).
Proof.
  cbn zeta. unfold Dashboard.leaderboard.
  set (sorted := Dashboard.sort_by_accuracy profiles).
  pose proof (sort_by_accuracy_perm profiles) as Hperm. fold sorted in Hperm.
  pose proof (sort_by_accuracy_sorted profiles) as Hsorted. fold sorted in Hsorted.
  rewrite <- (take_drop 5 sorted) in Hsorted.
  split; [rewrite length_take, <- Hperm; reflexivity |].
  split.
  { intros p Hp. rewrite <- Hperm.
    apply (subseteq_take 5 sorted p Hp). }
  split; [eapply StronglySorted_app_1_l, Hsorted |].
  intros p q Hp Hq Hout.
  rewrite <- Hperm, <- (take_drop 5 sorted) in Hq.
  apply elem_of_app in Hq as [Hq | Hq]; [contradiction |].
  apply (StronglySorted_app_1_elem_of _ _ _ p q Hsorted Hp Hq).
Qed.

Lemma leaderboard_top_five_witness :
  perf_technicianName <$> Dashboard.leaderboard seven_profiles
    = ["G"; "B"; "E"; "D"; "A"]
  /\ rated_no_lower (rated "A" 70) (rated "F" 60).
Proof.
  destruct (leaderboard_top_five seven_profiles) as (_ & _ & _ & Hbest).
  split; [vm_compute; reflexivity |].
  apply Hbest.
  - apply (list_elem_of_lookup_2 _ 4%nat). vm_compute. reflexivity.
  - apply (list_elem_of_lookup_2 _ 5%nat). reflexivity.
  - intros Hin. apply (list_elem_of_fmap_2 perf_technicianName) in Hin.
    revert Hin. apply (bool_decide_unpack _). vm_compute. exact I.
Defined.

(** ** The figures *)







(** ** The filters *)






(* ===================================================================== *)
(** * Further properties of the detected total *)
(* ===================================================================== *)

(** X24.  The detected total is never negative: whatever the model answers,
    the total read from its text is absent, not a number, or a number that
    is at least 0 (the marker admits no sign). *)
Theorem detected_total_not_negative (fullText : GeminiService.jsstring) :
  match GeminiService.result_detectedTotal
          (GeminiService.analysis_of_response fullText) with
  | Some (JS.Num q) => (0 <= q)%Q
  | Some JS.NaN => True
  | None => True
  end.
Proof.
  unfold GeminiService.analysis_of_response. cbn.
  destruct (GeminiService.totalMatch fullText) as [group |]; [| exact I].
  unfold GeminiService.parseFloat.
  destruct (GeminiService.take_while GeminiService.is_digit _) as [| u int_part];
    [destruct (match GeminiService.drop_while GeminiService.is_digit _ with
               | (46%N :: rest)%list => _ | _ => _ end) as [| v frac]; [exact I |] |];
    unfold Qle; cbn [Qnum Qden]; lia.
Qed.

(** ** Reading back a numeral *)

Lemma strip_literal_app (lit rest : GeminiService.jsstring) :
  GeminiService.strip_literal lit (lit ++ rest) = Some rest.
Proof.
  induction lit as [| a lit IH]; cbn; [reflexivity |].
  rewrite N.eqb_refl. exact IH.
Qed.

Lemma match_total_here_not_bracket (u : N) (rest : GeminiService.jsstring) :
  u <> 91%N -> GeminiService.match_total_here (u :: rest) = None.
Proof.
  intros Hu. unfold GeminiService.match_total_here.
  change (GeminiService.utf16 "[DETECTED_TOTAL:")
    with (91%N :: GeminiService.utf16 "DETECTED_TOTAL:").
  cbn [GeminiService.strip_literal].
  destruct (N.eqb_spec 91 u) as [<- | _]; [contradiction | reflexivity].
Qed.

Lemma totalMatch_skip (pre rest : GeminiService.jsstring) :
  Forall (fun u => u <> 91%N) pre ->
  GeminiService.totalMatch (pre ++ rest) = GeminiService.totalMatch rest.
Proof.
  induction 1 as [| u pre Hu _ IH]; [reflexivity |].
  cbn [app GeminiService.totalMatch].
  rewrite (match_total_here_not_bracket u _ Hu). exact IH.
Qed.

Lemma drop_while_app (p : N -> bool) (l rest : GeminiService.jsstring) :
  Forall (fun u => p u = true) l ->
  GeminiService.drop_while p (l ++ rest) = GeminiService.drop_while p rest.
Proof.
  induction 1 as [| u l Hu _ IH]; [reflexivity |]. cbn. rewrite Hu. exact IH.
Qed.

Lemma take_while_app (p : N -> bool) (l rest : GeminiService.jsstring) :
  Forall (fun u => p u = true) l ->
  GeminiService.take_while p (l ++ rest)
    = l ++ GeminiService.take_while p rest.
Proof.
  induction 1 as [| u l Hu _ IH]; [reflexivity |]. cbn. rewrite Hu, IH.
  reflexivity.
Qed.

Lemma units_are_digits (d : Decimal.uint) :
  Forall (fun u => (48 <= u <= 57)%N) (units_of_uint d).
Proof. induction d; cbn; constructor; auto; lia. Qed.

Lemma digit_facts (u : N) :
  (48 <= u <= 57)%N ->
  GeminiService.is_digit u = true
  /\ GeminiService.in_total_class u = true
  /\ GeminiService.is_space u = false
  /\ u <> 44%N.
Proof.
  intros Hu.
  assert (Hcases : u = 48%N \/ u = 49%N \/ u = 50%N \/ u = 51%N \/ u = 52%N
                   \/ u = 53%N \/ u = 54%N \/ u = 55%N \/ u = 56%N \/ u = 57%N)
    by lia.
  repeat (destruct Hcases as [-> | Hcases]; [repeat split; try reflexivity; lia |]).
  subst u. repeat split; try reflexivity; lia.
Qed.

Lemma decimal_value_units (d : Decimal.uint) (acc : N) :
  foldl (fun a u => 10 * a + (u - 48))%N acc (units_of_uint d)
  = N.of_nat (Nat.of_uint_acc d (N.to_nat acc)).
Proof.
  revert acc. induction d; intros acc; cbn [units_of_uint foldl Nat.of_uint_acc];
    [lia | ..]; rewrite IHd; f_equal; f_equal;
    rewrite Nat.tail_mul_spec; lia.
Qed.

Lemma decimal_nonempty (n : nat) : decimal n <> [].
Proof.
  unfold decimal. intros Hnil.
  assert (Hd : Nat.to_uint n <> Decimal.Nil).
  { rewrite <- (DecimalNat.Unsigned.of_to n) at 1.
    rewrite DecimalNat.Unsigned.to_of. apply DecimalFacts.unorm_nonnil. }
  destruct (Nat.to_uint n); [contradiction | ..]; discriminate.
Qed.

Lemma parseFloat_digits (l : GeminiService.jsstring) :
  Forall (fun u => GeminiService.is_digit u = true) l -> l <> [] ->
  GeminiService.parseFloat l
  = JS.Num (Z.of_N (GeminiService.decimal_value l) # 1).
Proof.
  intros Hdig Hne. unfold GeminiService.parseFloat.
  pose proof (take_while_app GeminiService.is_digit l [] Hdig) as Htake.
  pose proof (drop_while_app GeminiService.is_digit l [] Hdig) as Hdrop.
  rewrite app_nil_r in Htake, Hdrop. cbn in Htake, Hdrop.
  rewrite app_nil_r in Htake. rewrite Htake, Hdrop.
  destruct l as [| u rest]; [contradiction |].
  rewrite app_nil_r. reflexivity.
Qed.

(** X25.  A marker that holds the decimal numeral of a natural number is
    read back as that number: whatever precedes the marker (as long as it
    has no opening bracket), however much white space follows the colon, and
    whatever follows the closing bracket (further markers included), the
    detected total is the number written.  The number is taken up to 2^53,
    the range in which a number of the host holds every integer exactly. *)
Theorem marker_round_trip (n : nat) (pre ws post : GeminiService.jsstring) :
  Z.of_nat n <= 2 ^ 53 ->
  Forall (fun u => u <> 91%N) pre ->
  Forall (fun u => GeminiService.is_space u = true) ws ->
  GeminiService.result_detectedTotal
    (GeminiService.analysis_of_response
       (pre ++ GeminiService.utf16 "[DETECTED_TOTAL:" ++ ws ++ decimal n
            ++ 93%N :: post))
  = Some (JS.Num (inject_Z (Z.of_nat n))).
Proof.
  intros _ Hpre Hws.
  pose proof (units_are_digits (Nat.to_uint n)) as Hdigits.
  fold (decimal n) in Hdigits.
  pose proof (decimal_nonempty n) as Hne.
  assert (Hclass : Forall (fun u => GeminiService.in_total_class u = true) (decimal n)).
  { eapply Forall_impl; [exact Hdigits |]. intros u Hu. apply digit_facts, Hu. }
  assert (Hdig : Forall (fun u => GeminiService.is_digit u = true) (decimal n)).
  { eapply Forall_impl; [exact Hdigits |]. intros u Hu. apply digit_facts, Hu. }
  assert (Hhere : GeminiService.match_total_here
            (GeminiService.utf16 "[DETECTED_TOTAL:" ++ ws ++ decimal n ++ 93%N :: post)
          = Some (decimal n)).
  { unfold GeminiService.match_total_here. rewrite strip_literal_app.
    rewrite (drop_while_app _ ws _ Hws).
    assert (Hstart : GeminiService.drop_while GeminiService.is_space
                       (decimal n ++ 93%N :: post)
                     = decimal n ++ 93%N :: post).
    { destruct (decimal n) as [| u rest] eqn:Hd; [contradiction |].
      apply Forall_cons in Hdigits as [Hu _].
      cbn. destruct (digit_facts u Hu) as (_ & _ & -> & _). reflexivity. }
    rewrite Hstart.
    rewrite (take_while_app _ (decimal n) _ Hclass),
            (drop_while_app _ (decimal n) _ Hclass).
    cbn [GeminiService.take_while GeminiService.drop_while].
    change (GeminiService.in_total_class 93) with false. cbn iota.
    rewrite app_nil_r. destruct (decimal n); [contradiction | reflexivity]. }
  unfold GeminiService.analysis_of_response.
  cbn [GeminiService.result_detectedTotal].
  rewrite (totalMatch_skip pre _ Hpre).
  assert (Hmatch : forall s, GeminiService.match_total_here s = Some (decimal n) ->
                     GeminiService.totalMatch s = Some (decimal n)).
  { intros s Hs. destruct s; cbn [GeminiService.totalMatch]; rewrite Hs; reflexivity. }
  rewrite (Hmatch _ Hhere).
  assert (Hcommas : GeminiService.remove_commas (decimal n) = decimal n).
  { unfold GeminiService.remove_commas. apply filter_all.
    eapply Forall_impl; [exact Hdigits |]. intros u Hu. apply digit_facts, Hu. }
  rewrite Hcommas, (parseFloat_digits _ Hdig Hne).
  unfold GeminiService.decimal_value, decimal.
  rewrite decimal_value_units. change (N.to_nat 0) with 0%nat.
  fold (Nat.of_uint (Nat.to_uint n)). rewrite DecimalNat.Unsigned.of_to.
  rewrite nat_N_Z. reflexivity.
Qed.

Lemma marker_round_trip_witness :
  Z.of_nat 1250 <= 2 ^ 53
  /\ Forall (fun u => u <> 91%N) [84; 111; 116; 97; 108; 32]%N
  /\ Forall (fun u => GeminiService.is_space u = true) [32; 10]%N
  /\ GeminiService.result_detectedTotal
       (GeminiService.analysis_of_response
          ([84; 111; 116; 97; 108; 32]%N
             ++ GeminiService.utf16 "[DETECTED_TOTAL:" ++ [32; 10]%N
             ++ decimal 1250 ++ 93%N :: GeminiService.utf16 " [DETECTED_TOTAL: 7]"))
     = Some (JS.Num (inject_Z (Z.of_nat 1250))).
Proof.
  assert (Hpre : Forall (fun u => u <> 91%N) [84; 111; 116; 97; 108; 32]%N)
    by (repeat constructor; discriminate).
  assert (Hws : Forall (fun u => GeminiService.is_space u = true) [32; 10]%N)
    by (repeat constructor).
  assert (Hn : Z.of_nat 1250 <= 2 ^ 53) by (vm_compute; discriminate).
  split; [exact Hn |]. split; [exact Hpre |]. split; [exact Hws |].
  exact (marker_round_trip 1250 _ _ _ Hn Hpre Hws).
Defined.
